(** * abides_dev: order model, external-file oracle and market-replay agent

    A shallow embedding of
    - [abides/order/types.py]            (module [OrderTypes]),
    - [oracle/ExternalFileOracle.py]     (module [ExternalFileOracle]),
    - [backtesting/agent/examples/MarketReplayAgentUSD.py]
                                         (module [MarketReplayAgentUSD]),
    followed by the properties proved about them.

    Python integers are unbounded, so they are [Z].  A [pd.Timestamp] is its
    number of nanoseconds since the epoch, a [Z] as well.  Python objects with
    mutable attributes live in an explicit store ([pystate]); plain values are
    Rocq values. *)

From stdpp Require Import gmap strings list fin_maps pretty.
From Stdlib Require Import ZArith Lia Sorted QArith Qround.

Local Open Scope Z_scope.

(* ===================================================================== *)
(** ** abides/order/types.py                                              *)
(* ===================================================================== *)

Module OrderTypes.

(** The values an order's [tag] can hold ([tag: Any]); [None] is the
    [option]'s [None]. *)
#[warnings="-register-all"]
Inductive pyval : Type :=
| VInt (z : Z)
| VStr (s : string)
| VList (items : list pyval).

(** [copy.deepcopy] on tag values: atoms are returned as they are, a list is
    rebuilt from the deep copies of its items. *)
Fixpoint deepcopy (v : pyval) : pyval :=
  match v with
  | VInt z => VInt z
  | VStr s => VStr s
  | VList items => VList (List.map deepcopy items)
  end.

Definition deepcopy_tag (t : option pyval) : option pyval := deepcopy <$> t.

(** What the module imports from the rest of the package, taken as
    parameters: [silent_mode] ([abides.order.base]), [dollarize]
    ([abides.util]), [Kernel.fmtTime] ([abides.core]); and Python's [str] on
    a tag. *)
Class Rendering := {
  silent_mode : bool;
  dollarize : Z → string;
  fmtTime : Z → string;
  py_str : pyval → string
}.

(** [sys.maxsize] of a 64-bit CPython. *)
Definition sys_maxsize : Z := 2 ^ 63 - 1.

(** The slots of the base class [Order]. *)
Record Order : Type := mkOrder {
  agent_id : Z;
  time_placed : Z;
  symbol : string;
  quantity : Z;
  order_id : Z;
  fill_price : option Z;
  tag : option pyval
}.

Inductive market_class : Type := BuyMarket | SellMarket.
Inductive limit_class : Type := Bid | Ask.

(** The class attribute [is_buy_order] of the four concrete classes. *)
Class IsBuyOrder (C : Type) := is_buy_order : C → bool.

#[global] Instance market_is_buy_order : IsBuyOrder market_class :=
  λ c, match c with BuyMarket => true | SellMarket => false end.

#[global] Instance limit_is_buy_order : IsBuyOrder limit_class :=
  λ c, match c with Bid => true | Ask => false end.

Definition class_name (c : limit_class) : string :=
  match c with Bid => "Bid" | Ask => "Ask" end.

Record MarketOrder : Type := mkMarketOrder {
  m_class : market_class;
  m_base : Order
}.

Record LimitOrder : Type := mkLimitOrder {
  l_class : limit_class;
  l_base : Order;
  limit_price : Z
}.

Record BasketOrder : Type := mkBasketOrder {
  b_base : Order;
  dollar : bool
}.

(** An order object is an instance of one of the classes of the module. *)
Inductive order : Type :=
| OMarket (m : MarketOrder)
| OLimit (l : LimitOrder)
| OBasket (b : BasketOrder).

Definition base_of (o : order) : Order :=
  match o with
  | OMarket m => m_base m
  | OLimit l => l_base l
  | OBasket b => b_base b
  end.

(** The price fields of an instance: the [limit_price] slot of a limit
    order; the other classes have none. *)
Definition price_fields (o : order) : option Z :=
  match o with
  | OLimit l => Some (limit_price l)
  | _ => None
  end.

(** The [dollar] slot of a basket order. *)
Definition dollar_flag (o : order) : option bool :=
  match o with
  | OBasket b => Some (dollar b)
  | _ => None
  end.

(** [is_buy_order] as read on an instance: the attribute of its class.
    [BasketOrder] binds none in this module. *)
Definition order_is_buy_order (o : order) : option bool :=
  match o with
  | OMarket m => Some (is_buy_order (m_class m))
  | OLimit l => Some (is_buy_order (l_class l))
  | OBasket _ => None
  end.

(** The class of an instance ([self.__class__]). *)
Inductive order_class : Type :=
| CMarket (c : market_class)
| CLimit (c : limit_class)
| CBasket.

Definition class_of (o : order) : order_class :=
  match o with
  | OMarket m => CMarket (m_class m)
  | OLimit l => CLimit (l_class l)
  | OBasket _ => CBasket
  end.

(** *** The interpreter state the module's code runs in *)

(** [objs]: the order objects, by address; [next_order_id]: the id
    allocator; [stdout]: the lines printed so far. *)
Record pystate : Type := mkState {
  objs : gmap nat order;
  next_order_id : Z;
  stdout : list string
}.

Definition M (A : Type) : Type := pystate → A * pystate.

Definition ret {A} (a : A) : M A := λ st, (a, st).

Definition bind {A B} (c : M A) (k : A → M B) : M B :=
  λ st, let (a, st') := c st in k a st'.

#[global] Instance M_ret : MRet M := @ret.
#[global] Instance M_bind : MBind M := λ A B k c, bind c k.

Definition print (line : string) : M unit :=
  λ st, (tt, mkState (objs st) (next_order_id st) (stdout st ++ [line])).

(** Modelled from the spec: the constructor of the base class [Order]
    ([abides.order.base], a module this development does not embed).
    "[order_id] (unique, assigned at creation unless externally supplied)": a
    supplied id is kept, an omitted one is drawn from the allocator;
    "[fill_price] ([None]/absent until executed)"; the other arguments are
    stored. *)
Definition Order_init (agent_id time_placed : Z) (symbol : string)
    (quantity : Z) (order_id : option Z) (tag : option pyval) : M Order :=
  λ st,
    match order_id with
    | Some oid =>
        (mkOrder agent_id time_placed symbol quantity oid None tag, st)
    | None =>
        (mkOrder agent_id time_placed symbol quantity (next_order_id st) None tag,
         mkState (objs st) (next_order_id st + 1) (stdout st))
    end.

Definition with_fill_price (o : Order) (p : option Z) : Order :=
  mkOrder (agent_id o) (time_placed o) (symbol o) (quantity o) (order_id o)
          p (tag o).

Definition with_tag (o : Order) (t : option pyval) : Order :=
  mkOrder (agent_id o) (time_placed o) (symbol o) (quantity o) (order_id o)
          (fill_price o) t.

(** **** MarketOrder *)

(** [MarketOrder] has no [__init__] of its own: [self.__class__(...)] is the
    base constructor. *)
Definition MarketOrder_init (c : market_class) (agent_id time_placed : Z)
    (symbol : string) (quantity : Z) (order_id : option Z)
    (tag : option pyval) : M MarketOrder :=
  b ← Order_init agent_id time_placed symbol quantity order_id tag;
  ret (mkMarketOrder c b).

Definition MarketOrder_copy (self : MarketOrder) : M MarketOrder :=
  order ← MarketOrder_init (m_class self)
             (agent_id (m_base self)) (time_placed (m_base self))
             (symbol (m_base self)) (quantity (m_base self))
             (Some (order_id (m_base self))) (tag (m_base self));
  ret (mkMarketOrder (m_class order)
         (with_fill_price (m_base order) (fill_price (m_base self)))).

Definition MarketOrder_deepcopy (self : MarketOrder) : M MarketOrder :=
  order ← MarketOrder_init (m_class self)
             (agent_id (m_base self)) (time_placed (m_base self))
             (symbol (m_base self)) (quantity (m_base self))
             (Some (order_id (m_base self)))
             (deepcopy_tag (tag (m_base self)));
  ret (mkMarketOrder (m_class order)
         (with_fill_price (m_base order) (fill_price (m_base self)))).

(** **** LimitOrder *)

Definition LimitOrder_init (c : limit_class) (agent_id time_placed : Z)
    (symbol : string) (quantity limit_price : Z) (order_id : option Z)
    (tag : option pyval) : M LimitOrder :=
  b ← Order_init agent_id time_placed symbol quantity order_id tag;
  ret (mkLimitOrder c b limit_price).

Definition LimitOrder_copy (self : LimitOrder) : M LimitOrder :=
  order ← LimitOrder_init (l_class self)
             (agent_id (l_base self)) (time_placed (l_base self))
             (symbol (l_base self)) (quantity (l_base self))
             (limit_price self)
             (Some (order_id (l_base self))) (tag (l_base self));
  ret (mkLimitOrder (l_class order)
         (with_fill_price (l_base order) (fill_price (l_base self)))
         (limit_price order)).

Definition LimitOrder_deepcopy (self : LimitOrder) : M LimitOrder :=
  order ← LimitOrder_init (l_class self)
             (agent_id (l_base self)) (time_placed (l_base self))
             (symbol (l_base self)) (quantity (l_base self))
             (limit_price self)
             (Some (order_id (l_base self)))
             (deepcopy_tag (tag (l_base self)));
  ret (mkLimitOrder (l_class order)
         (with_fill_price (l_base order) (fill_price (l_base self)))
         (limit_price order)).

Section Str.
Context `{Rendering}.

(** [fill_price] as a condition: [None] and [0] are false. *)
Definition truthy (p : option Z) : bool :=
  match p with
  | Some v => negb (v =? 0)
  | None => false
  end.

Definition tag_info (l : LimitOrder) : string :=
  match tag (l_base l) with
  | Some t => " [" +:+ py_str t +:+ "]"
  | None => ""
  end.

Definition limit_info (l : LimitOrder) : string :=
  if limit_price l <? sys_maxsize then dollarize (limit_price l) else "MKT".

Definition filled (l : LimitOrder) : string :=
  match fill_price (l_base l) with
  | Some v =>
      if truthy (Some v) then " (filled @ " +:+ dollarize v +:+ ")" else ""
  | None => ""
  end.

(** [LimitOrder.__str__]: one of the two definitions, picked by
    [silent_mode] when the class is created. *)
Definition LimitOrder_str (self : LimitOrder) : string :=
  if silent_mode then ""
  else
    "(Agent " +:+ pretty (agent_id (l_base self)) +:+ " @ "
      +:+ fmtTime (time_placed (l_base self)) +:+ tag_info self +:+ ") : "
      +:+ (if is_buy_order (l_class self) then "BUY" else "SELL") +:+ " "
      +:+ pretty (quantity (l_base self)) +:+ " " +:+ symbol (l_base self)
      +:+ " @ " +:+ limit_info self +:+ filled self.

Definition isMatch_warning (self other : LimitOrder) : string :=
  "WARNING: isMatch() called on limit orders of same type: "
    +:+ LimitOrder_str self +:+ " vs " +:+ LimitOrder_str other.

(** [LimitOrder.isMatch]. *)
Definition isMatch (self other : LimitOrder) : M bool :=
  let is_buy := is_buy_order (l_class self) in
  if Bool.eqb is_buy (is_buy_order (l_class other)) then
    print (isMatch_warning self other);;
    ret false
  else if is_buy then ret (limit_price other <=? limit_price self)
  else ret (limit_price self <=? limit_price other).

Definition hasEqPrice (self other : LimitOrder) : bool :=
  limit_price self =? limit_price other.

Definition hasBetterPrice_warning (self other : LimitOrder) : string :=
  "WARNING: hasBetterPrice() called on orders of different type: "
    +:+ class_name (l_class self) +:+ " vs " +:+ class_name (l_class other).

(** [LimitOrder.hasBetterPrice]. *)
Definition hasBetterPrice (self other : LimitOrder) : M bool :=
  let self_is_buy := is_buy_order (l_class self) in
  if negb (Bool.eqb self_is_buy (is_buy_order (l_class other))) then
    print (hasBetterPrice_warning self other);;
    ret false
  else if self_is_buy then ret (limit_price other <? limit_price self)
  else ret (limit_price self <? limit_price other).

End Str.

(** **** BasketOrder *)

(** [BasketOrder.__init__] takes no tag and hands the base constructor five
    arguments: the tag is the base constructor's default, [None] as in
    [LimitOrder.__init__] ([tag: Any = None]). *)
Definition BasketOrder_init (agent_id time_placed : Z) (symbol : string)
    (quantity : Z) (dollar : bool) (order_id : option Z) : M BasketOrder :=
  b ← Order_init agent_id time_placed symbol quantity order_id None;
  ret (mkBasketOrder b dollar).

Definition BasketOrder_copy (self : BasketOrder) : M BasketOrder :=
  order ← BasketOrder_init
             (agent_id (b_base self)) (time_placed (b_base self))
             (symbol (b_base self)) (quantity (b_base self))
             (dollar self) (Some (order_id (b_base self)));
  ret (mkBasketOrder
         (with_fill_price (b_base order) (fill_price (b_base self)))
         (dollar order)).

Definition BasketOrder_deepcopy (self : BasketOrder) : M BasketOrder :=
  BasketOrder_copy self.

(** *** Programs over the module *)

(** Allocation of a new object: a fresh address of the store. *)
Definition new (o : order) : M nat :=
  λ st, let a := fresh (dom (objs st)) in
        (a, mkState (<[a:=o]> (objs st)) (next_order_id st) (stdout st)).

(** [copy.copy(x)] and [copy.deepcopy(x)] dispatch on the class of [x]. *)
Definition order_copy (o : order) : M order :=
  match o with
  | OMarket m => m' ← MarketOrder_copy m; ret (OMarket m')
  | OLimit l => l' ← LimitOrder_copy l; ret (OLimit l')
  | OBasket b => b' ← BasketOrder_copy b; ret (OBasket b')
  end.

Definition order_deepcopy (o : order) : M order :=
  match o with
  | OMarket m => m' ← MarketOrder_deepcopy m; ret (OMarket m')
  | OLimit l => l' ← LimitOrder_deepcopy l; ret (OLimit l')
  | OBasket b => b' ← BasketOrder_deepcopy b; ret (OBasket b')
  end.

(** Assignment to an attribute of the base class, on any instance. *)
Definition on_base (f : Order → Order) (o : order) : order :=
  match o with
  | OMarket m => OMarket (mkMarketOrder (m_class m) (f (m_base m)))
  | OLimit l => OLimit (mkLimitOrder (l_class l) (f (l_base l)) (limit_price l))
  | OBasket b => OBasket (mkBasketOrder (f (b_base b)) (dollar b))
  end.

Definition store (a : nat) (o : order) : M unit :=
  λ st, (tt, mkState (<[a:=o]> (objs st)) (next_order_id st) (stdout st)).

(** One statement of a program that uses the module's classes. *)
Inductive stmt : Type :=
| New_MarketOrder (c : market_class) (agent_id time_placed : Z)
    (symbol : string) (quantity : Z) (order_id : option Z) (tag : option pyval)
| New_LimitOrder (c : limit_class) (agent_id time_placed : Z)
    (symbol : string) (quantity limit_price : Z) (order_id : option Z)
    (tag : option pyval)
| New_BasketOrder (agent_id time_placed : Z) (symbol : string)
    (quantity : Z) (dollar : bool) (order_id : option Z)
| Copy (a : nat)
| Deepcopy (a : nat)
| Set_fill_price (a : nat) (p : option Z)
| Set_tag (a : nat) (t : option pyval)
| Call_isMatch (a b : nat)
| Call_hasEqPrice (a b : nat)
| Call_hasBetterPrice (a b : nat).

(** What a statement evaluates to.  [Untyped] stands for a statement outside
    the model: an address that holds no object, or a [LimitOrder] method
    called on (or with) an instance of another class; it leaves the state as
    it is. *)
Inductive outcome : Type :=
| Ref (a : nat)
| Bool (b : bool)
| Done
| Untyped.

Section Exec.
Context `{Rendering}.

Definition limit_call (f : LimitOrder → LimitOrder → M bool) (a b : nat)
  : M outcome :=
  λ st,
    match objs st !! a, objs st !! b with
    | Some (OLimit self), Some (OLimit other) =>
        let (r, st') := f self other st in (Bool r, st')
    | _, _ => (Untyped, st)
    end.

Definition exec (s : stmt) : M outcome :=
  match s with
  | New_MarketOrder c ag t sy q oid tg =>
      m ← MarketOrder_init c ag t sy q oid tg;
      a ← new (OMarket m); ret (Ref a)
  | New_LimitOrder c ag t sy q lp oid tg =>
      l ← LimitOrder_init c ag t sy q lp oid tg;
      a ← new (OLimit l); ret (Ref a)
  | New_BasketOrder ag t sy q d oid =>
      b ← BasketOrder_init ag t sy q d oid;
      a ← new (OBasket b); ret (Ref a)
  | Copy a =>
      λ st, match objs st !! a with
            | Some o => (o' ← order_copy o; b ← new o'; ret (Ref b)) st
            | None => (Untyped, st)
            end
  | Deepcopy a =>
      λ st, match objs st !! a with
            | Some o => (o' ← order_deepcopy o; b ← new o'; ret (Ref b)) st
            | None => (Untyped, st)
            end
  | Set_fill_price a p =>
      λ st, match objs st !! a with
            | Some o =>
                (store a (on_base (λ b, with_fill_price b p) o);; ret Done) st
            | None => (Untyped, st)
            end
  | Set_tag a t =>
      λ st, match objs st !! a with
            | Some o => (store a (on_base (λ b, with_tag b t) o);; ret Done) st
            | None => (Untyped, st)
            end
  | Call_isMatch a b => limit_call isMatch a b
  | Call_hasEqPrice a b => limit_call (λ x y, ret (hasEqPrice x y)) a b
  | Call_hasBetterPrice a b => limit_call hasBetterPrice a b
  end.

(** A program: its statements in order; the outcomes are dropped. *)
Fixpoint run (p : list stmt) (st : pystate) : pystate :=
  match p with
  | [] => st
  | s :: p' => run p' (exec s st).2
  end.

End Exec.

Definition initial : pystate := mkState ∅ 0 [].

End OrderTypes.

(* ===================================================================== *)
(** ** oracle/ExternalFileOracle.py                                       *)
(* ===================================================================== *)

Module ExternalFileOracle.

Inductive exn : Type :=
| KeyError
| IndexError
| AttributeError
| ZeroDivisionError
| ValueError
| OverflowError.

Inductive result (A : Type) : Type :=
| Ok (a : A)
| Raise (e : exn).
Arguments Ok {A} a.
Arguments Raise {A} e.

(** The arithmetic of the values of a price series (numpy scalars and Python
    floats), kept abstract: the oracle only combines them.  [total_seconds]
    is [Timedelta.total_seconds()] of a difference of two timestamps,
    [is_zero x] is [x == 0], [num_neq x y] is [x != y] and [num_zero] is the
    literal [0].  Three operations can raise: [num_div x y] is [x / y]
    ([ZeroDivisionError] on Python floats when [y] is zero), [num_sqrt x] is
    [math.sqrt(x)] ([ValueError] on a negative [x]), and [int_round x] is
    [int(round(x))] ([ValueError] on a nan, [OverflowError] on an
    infinity). *)
Class PriceOps (num : Type) := {
  num_add : num → num → num;
  num_sub : num → num → num;
  num_mul : num → num → num;
  num_div : num → num → result num;
  num_neq : num → num → bool;
  num_zero : num;
  num_sqrt : num → result num;
  is_zero : num → bool;
  total_seconds : Z → num;
  int_round : num → result Z
}.

(** [np.random.RandomState.normal(loc, scale)]: a draw, and the state of the
    generator after it. *)
Class Normal (num rng : Type) := normal : rng → num → num → num * rng.

(** [l[i]] on a sequence, negative positions counted from the end. *)
Definition py_index {A} (l : list A) (i : Z) : result A :=
  let n := Z.of_nat (length l) in
  let pos := if 0 <=? i then i else n + i in
  if (0 <=? pos) && (pos <? n) then
    match l !! Z.to_nat pos with
    | Some x => Ok x
    | None => Raise IndexError
    end
  else Raise IndexError.

(** [bisect.bisect_left(a, x)]: the loop of the standard library, [lo] and
    [hi] starting at [0] and [len(a)].  Each turn at least halves [hi - lo],
    so [S (length a)] turns are more than the loop takes. *)
Fixpoint bisect_loop (turns : nat) (a : list Z) (x : Z) (lo hi : nat) : nat :=
  match turns with
  | O => lo
  | S turns' =>
      if (lo <? hi)%nat then
        let mid := ((lo + hi) / 2)%nat in
        match a !! mid with
        | Some v =>
            if v <? x then bisect_loop turns' a x (mid + 1)%nat hi
            else bisect_loop turns' a x lo mid
        | None => lo
        end
      else lo
  end.

Definition bisect_left (a : list Z) (x : Z) : nat :=
  bisect_loop (S (length a)) a x 0 (length a).

Section Oracle.
Context {num rng : Type} `{PriceOps num} `{Normal num rng}.

(** The oracle object.  A series is its rows, timestamp and value, in file
    order; an entry of [f_log] is the pair of its ['FundamentalTime'] and
    ['FundamentalValue'].  ([symbols], the configuration the series are
    loaded from, is not read by the methods below.) *)
Record oracle : Type := mkOracle {
  mkt_open : option Z;
  fundamentals : gmap string (list (Z * num));
  f_log : gmap string (list (Z * num))
}.

Definition O (A : Type) : Type := oracle → result A * oracle.

Definition oret {A} (a : A) : O A := λ self, (Ok a, self).

Definition obind {A B} (c : O A) (k : A → O B) : O B :=
  λ self, match c self with
          | (Ok a, self') => k a self'
          | (Raise e, self') => (Raise e, self')
          end.

#[local] Instance O_ret : MRet O := @oret.
#[local] Instance O_bind : MBind O := λ A B k c, obind c k.

Definition lift {A} (r : result A) : O A := λ self, (r, self).

(** [self.fundamentals[symbol]]. *)
Definition get_fundamental (symbol : string) : O (list (Z * num)) :=
  λ self, match fundamentals self !! symbol with
          | Some series => (Ok series, self)
          | None => (Raise KeyError, self)
          end.

(** [self.f_log[symbol].append(entry)]. *)
Definition f_log_append (symbol : string) (entry : Z * num) : O unit :=
  λ self, match f_log self !! symbol with
          | Some log =>
              (Ok tt, mkOracle (mkt_open self) (fundamentals self)
                        (<[symbol := log ++ [entry]]> (f_log self)))
          | None => (Raise KeyError, self)
          end.

(** [getInterpolatedPrice]: the division is made only when the two prices
    differ, and what it raises ends the call. *)
Definition getInterpolatedPrice (current_time time_low time_high : Z)
    (price_low price_high : num) : result num :=
  let delta_y := num_sub price_high price_low in
  let delta_x := total_seconds (time_high - time_low) in
  match
    (if num_neq price_low price_high then num_div delta_y delta_x
     else Ok num_zero)
  with
  | Ok slope =>
      let x_fwd := total_seconds (current_time - time_low) in
      Ok (num_add price_low (num_mul x_fwd slope))
  | Raise e => Raise e
  end.

(** [getPriceAtTime] (the calls of [log_print] left out). *)
Definition getPriceAtTime (symbol : string) (query_time : Z) : O num :=
  fundamental_series ← get_fundamental symbol;
  let index := fundamental_series.*1 in
  let values := fundamental_series.*2 in
  let time_of_query := query_time in
  series_open_time ← lift (py_index index 0);
  series_close_time ← lift (py_index index (-1));
  if time_of_query <? series_open_time then lift (py_index values 0)
  else if series_close_time <? time_of_query then lift (py_index values (-1))
  else
    let lower_idx := Z.of_nat (bisect_left index time_of_query) - 1 in
    let upper_idx :=
      if lower_idx <? Z.of_nat (length index) - 1 then lower_idx + 1
      else lower_idx in
    lower_val ← lift (py_index values lower_idx);
    upper_val ← lift (py_index values upper_idx);
    time_low ← lift (py_index index lower_idx);
    time_high ← lift (py_index index upper_idx);
    interpolated_price ←
      lift (getInterpolatedPrice query_time time_low time_high
              lower_val upper_val);
    f_log_append symbol (query_time, interpolated_price);;
    oret interpolated_price.

(** [getDailyOpenPrice]. *)
Definition getDailyOpenPrice (symbol : string) (mkt_open : Z) : O Z :=
  λ self,
    let self' := mkOracle (Some mkt_open) (fundamentals self) (f_log self) in
    (open_price ← getPriceAtTime symbol mkt_open;
     lift (int_round open_price)) self'.

(** [observePrice].  [random_state] is the caller's generator object, or
    [None]; the function hands back the generator as it leaves it.  In
    [random_state.normal(loc=true_price, scale=sqrt(sigma_n))] the method is
    looked up first ([AttributeError] on [None]), then the square root is
    taken, then the draw is made. *)
Definition observePrice (symbol : string) (current_time : Z) (sigma_n : num)
    (random_state : option rng) (self : oracle)
  : result Z * oracle * option rng :=
  match getPriceAtTime symbol current_time self with
  | (Raise e, self') => (Raise e, self', random_state)
  | (Ok true_price, self') =>
      if is_zero sigma_n then
        (int_round true_price, self', random_state)
      else
        match random_state with
        | None => (Raise AttributeError, self', None)
        | Some g =>
            match num_sqrt sigma_n with
            | Raise e => (Raise e, self', Some g)
            | Ok scale =>
                let (observed, g') := normal g true_price scale in
                (int_round observed, self', Some g')
            end
        end
  end.

End Oracle.

Arguments oracle num : clear implicits.

End ExternalFileOracle.

(* ===================================================================== *)
(** ** backtesting/agent/examples/MarketReplayAgentUSD.py                 *)
(* ===================================================================== *)

Module MarketReplayAgentUSD.

(** One record of the historical order stream (a row of [orders_dict]). *)
Record record : Type := mkRecord {
  Order_ID : Z;
  Size : Z;
  Type_ : string;
  Direction : string;
  Price : Z
}.

(** The arguments of the [LimitOrder] built for a modification (the class
    of [backtesting.order.base], kept as the record of what it is given). *)
Record LimitOrder : Type := mkLimitOrder {
  lo_agent_id : Z;
  lo_time_placed : Z;
  lo_symbol : string;
  lo_quantity : Z;
  lo_is_buy_order : bool;
  lo_limit_price : Z;
  lo_order_id : Z
}.

(** What the agent inherits from [TradingAgent]
    ([backtesting.agent.TradingAgent]), taken as parameters: the rest of the
    agent's state [St], the orders [ord] it holds, [self.orders.get], and the
    three methods through which it acts. *)
Class TradingAgent (St ord : Type) := {
  orders_get : St → Z → option ord;
  placeLimitOrder : string → Z → bool → Z → Z → St → St;
  cancelOrder : ord → St → St;
  modifyOrder : ord → LimitOrder → St → St
}.

Section Agent.
Context {St ord : Type} `{TradingAgent St ord}.

(** A call of one of the three methods, with its arguments. *)
Inductive action : Type :=
| PlaceLimitOrder (symbol : string) (quantity : Z) (is_buy_order : bool)
    (limit_price : Z) (order_id : Z)
| CancelOrder (existing_order : ord)
| ModifyOrder (existing_order : ord) (new_order : LimitOrder).

(** The agent: [symbol] and [id], the inherited state, and the calls made so
    far, oldest first. *)
Record agent : Type := mkAgent {
  symbol : string;
  id : Z;
  inherited : St;
  actions : list action
}.

Definition act (a : action) (self : agent) : agent :=
  let inherited' :=
    match a with
    | PlaceLimitOrder sy q b p oid =>
        placeLimitOrder sy q b p oid (inherited self)
    | CancelOrder e => cancelOrder e (inherited self)
    | ModifyOrder e n => modifyOrder e n (inherited self)
    end in
  mkAgent (symbol self) (id self) inherited' (actions self ++ [a]).

(** The body of [placeOrder] under [len(order) == 1], on [order[0]]. *)
Definition placeOrder_record (currentTime : Z) (order : record)
    (self : agent) : agent :=
  let order_id := Order_ID order in
  let existing_order := orders_get (inherited self) order_id in
  if negb (bool_decide (is_Some existing_order))
     && (0 <? Size order) && String.eqb (Type_ order) "R" then
    act (PlaceLimitOrder (symbol self) (Size order)
           (String.eqb (Direction order) "BUY") (Price order) order_id) self
  else
    match existing_order with
    | Some existing =>
        if Size order =? 0 then act (CancelOrder existing) self
        else if 0 <? Size order then
          act (ModifyOrder existing
                 (mkLimitOrder (id self) currentTime (symbol self)
                    (Size order) (String.eqb (Direction order) "BUY")
                    (Price order) order_id)) self
        else self
    | None => self
    end.

(** [placeOrder].  [depth] bounds the nesting of the calls; [None] is a run
    that needs more. *)
Fixpoint placeOrder (depth : nat) (currentTime : Z) (order : list record)
    (self : agent) : option agent :=
  match depth with
  | O => None
  | S depth' =>
      if (length order =? 1)%nat then
        match order with
        | order0 :: _ => Some (placeOrder_record currentTime order0 self)
        | [] => None
        end
      else
        foldl (λ acc ind_order,
                 self' ← acc; placeOrder depth' currentTime [ind_order] self')
              (Some self) order
  end.

End Agent.

Arguments action ord : clear implicits.
Arguments agent St ord : clear implicits.

End MarketReplayAgentUSD.

(* ===================================================================== *)
(** ** Concrete data the model is run on                                  *)
(* ===================================================================== *)

Module Samples.
Import OrderTypes.

(** A rendering with [silent_mode] off: cents printed as they are. *)
#[global] Instance plain_rendering : Rendering := {|
  silent_mode := false;
  dollarize := λ c, "$" +:+ pretty c;
  fmtTime := λ t, pretty t;
  py_str := λ v, match v with
                 | VInt z => pretty z
                 | VStr s => s
                 | VList _ => "[...]"
                 end
|}.

Definition limit_order (c : limit_class) (price : Z) : LimitOrder :=
  mkLimitOrder c (mkOrder 1 0 "USD/RUB" 10 0 None None) price.

Definition bid10 : LimitOrder := limit_order Bid 10.
Definition bid100 : LimitOrder := limit_order Bid 100.
Definition ask10 : LimitOrder := limit_order Ask 10.
Definition ask90 : LimitOrder := limit_order Ask 90.
Definition ask100 : LimitOrder := limit_order Ask 100.
Definition bid_max : LimitOrder := limit_order Bid sys_maxsize.
Definition ask_above_max : LimitOrder := limit_order Ask (sys_maxsize + 1).

(** A store with a bid at address 0 and an ask at address 1. *)
Definition two_orders : pystate :=
  run [New_LimitOrder Bid 1 0 "USD/RUB" 10 100 None None;
       New_LimitOrder Ask 2 0 "USD/RUB" 10 90 None (Some (VList [VInt 1; VStr "a"]))]
      initial.

(** A basket order, created and then tagged ([basket.tag = 'x']). *)
Definition tagged_basket : pystate :=
  run [New_BasketOrder 1 0 "ETF" 10 true (Some 7);
       Set_tag 0 (Some (VStr "x"))]
      initial.

End Samples.

Module OracleSamples.
Import ExternalFileOracle.

(** Exact rationals in the place of floats: enough to run the oracle on a
    small series.  Division by zero and the square root of a negative number
    raise as on Python floats; the square root is taken on the integer
    part. *)
Definition round_half_even (x : Q) : Z :=
  let f := Qfloor (x + (1 # 2))%Q in
  if Qeq_bool (x + (1 # 2))%Q (inject_Z f) && Z.odd f then f - 1 else f.

#[global] Instance exact_ops : PriceOps Q := {|
  num_add := Qplus;
  num_sub := Qminus;
  num_mul := Qmult;
  num_div := λ x y,
    if Qeq_bool y 0%Q then Raise ZeroDivisionError else Ok (Qdiv x y);
  num_neq := λ x y, negb (Qeq_bool x y);
  num_zero := 0%Q;
  num_sqrt := λ x,
    if Qle_bool 0%Q x then Ok (inject_Z (Z.sqrt (Qfloor x)))
    else Raise ValueError;
  is_zero := λ x, Qeq_bool x 0%Q;
  total_seconds := λ ns, (ns # 1000000000)%Q;
  int_round := λ x, Ok (round_half_even x)
|}.

(** A generator whose state is a counter and whose draw is [loc]. *)
#[global] Instance counting_normal : Normal Q Z :=
  λ g loc scale, (loc, g + 1).

Definition abc_series : list (Z * Q) :=
  [(10, inject_Z 100); (20, inject_Z 110); (30, inject_Z 105)].

Definition abc_oracle : oracle Q :=
  mkOracle None {["ABC" := abc_series]} {["ABC" := []]}.

(** A series that is not in chronological order. *)
Definition unordered_series : list (Z * Q) :=
  [(20, inject_Z 1); (10, inject_Z 2)].

Definition unordered_oracle : oracle Q :=
  mkOracle None {["ABC" := unordered_series]} {["ABC" := []]}.

End OracleSamples.

Module ReplaySamples.
Import MarketReplayAgentUSD.

(** An agent whose inherited state is its dictionary of orders: a placed
    order is entered, a cancellation or modification is only sent. *)
#[global] Instance dict_agent : TradingAgent (gmap Z LimitOrder) LimitOrder := {|
  orders_get := λ st order_id, st !! order_id;
  placeLimitOrder := λ sy q b p oid st,
    <[oid := mkLimitOrder 0 0 sy q b p oid]> st;
  cancelOrder := λ _ st, st;
  modifyOrder := λ _ _ st, st
|}.

Definition replay_agent : agent (gmap Z LimitOrder) LimitOrder :=
  mkAgent "ABC" 0 ∅ [].

Definition rec_new : record := mkRecord 1 5 "R" "BUY" 100.
Definition rec_modify : record := mkRecord 1 3 "R" "BUY" 101.
Definition rec_cancel : record := mkRecord 1 0 "R" "BUY" 101.
Definition rec_other : record := mkRecord 2 5 "A" "SELL" 102.

End ReplaySamples.

(* ===================================================================== *)
(** ** What the statements about copies are written with                  *)
(* ===================================================================== *)

Module CopySpec.
Import OrderTypes.

(** The copy of an order, as a value: the order itself, but for a basket
    order, whose tag is the constructor's default. *)
Definition copied (o : order) : order :=
  match o with
  | OBasket b => OBasket (mkBasketOrder (with_tag (b_base b) None) (dollar b))
  | _ => o
  end.

(** For the statement [s] that copies the object at [a]: the copy's tag is
    the original's. *)
Definition copy_keeps_tag `{Rendering} (s : stmt) (a : nat) (st : pystate)
  : Prop :=
  ∃ b o o',
    objs st !! a = Some o ∧
    (exec s st).1 = Ref b ∧
    objs (exec s st).2 !! b = Some o' ∧
    tag (base_of o') = tag (base_of o).

(** Unfolds the monad and the constructors in a goal about one statement. *)
Ltac step_m :=
  repeat progress
    (unfold exec, mbind, M_bind, bind, new, store, ret,
       MarketOrder_init, LimitOrder_init, BasketOrder_init, Order_init; cbn).

End CopySpec.

(* ===================================================================== *)
(** ** Properties of the order model                                      *)
(* ===================================================================== *)

Section OrderProperties.
Import OrderTypes.
Context `{Rendering}.

Lemma limit_class_is_buy (c : limit_class) :
  is_buy_order c = match c with Bid => true | Ask => false end.
Proof. by destruct c. Qed.

(** Without a warning, both predicates leave the state alone and return the
    plain comparison of the two prices. *)
Lemma isMatch_opposite (self other : LimitOrder) (st : pystate) :
  l_class self ≠ l_class other →
  isMatch self other st =
    ((if is_buy_order (l_class self)
      then limit_price other <=? limit_price self
      else limit_price self <=? limit_price other), st).
Proof.
  intros Hne. unfold isMatch.
  destruct (l_class self), (l_class other); try congruence; reflexivity.
Qed.

Lemma hasBetterPrice_same (self other : LimitOrder) (st : pystate) :
  l_class self = l_class other →
  hasBetterPrice self other st =
    ((if is_buy_order (l_class self)
      then limit_price other <? limit_price self
      else limit_price self <? limit_price other), st).
Proof.
  intros Heq. unfold hasBetterPrice. rewrite <- Heq.
  destruct (l_class self); reflexivity.
Qed.

(** C1.  For a buy limit order [A] (a [Bid]) and a sell limit order [B] (an
    [Ask]): [A.isMatch(B)] and [B.isMatch(A)] are both [True] when
    [A.limit_price >= B.limit_price] and both [False] when
    [A.limit_price < B.limit_price]; the two calls always agree, and neither
    prints or changes anything. *)
Theorem isMatch_buy_sell (A B : LimitOrder) (st : pystate) :
  l_class A = Bid → l_class B = Ask →
  (limit_price A >= limit_price B →
     isMatch A B st = (true, st) ∧ isMatch B A st = (true, st)) ∧
  (limit_price A < limit_price B →
     isMatch A B st = (false, st) ∧ isMatch B A st = (false, st)) ∧
  isMatch A B st = isMatch B A st.
Proof.
  intros HA HB.
  rewrite (isMatch_opposite A B), (isMatch_opposite B A) by congruence.
  rewrite HA, HB. cbn.
  repeat split; intros; f_equal; lia.
Qed.

(** C2, as the code has it.  For two [Bid]s with distinct limit prices, the
    higher-priced bid's [hasBetterPrice] called with the lower-priced bid
    returns [True], and the lower-priced bid's [hasBetterPrice] called with
    the higher-priced bid returns [False] (the docstring's
    [Bid(10).hasBetterPrice(Bid(100))] is [False]). *)
Theorem hasBetterPrice_bids (high low : LimitOrder) (st : pystate) :
  l_class high = Bid → l_class low = Bid →
  limit_price low < limit_price high →
  hasBetterPrice high low st = (true, st) ∧
  hasBetterPrice low high st = (false, st).
Proof.
  intros Hh Hl Hlt.
  rewrite (hasBetterPrice_same high low), (hasBetterPrice_same low high)
    by congruence.
  rewrite Hh, Hl. cbn. split; f_equal; lia.
Qed.

(** C3.  [x.hasBetterPrice(x)] is [False] for every limit order [x]; for two
    limit orders of one direction with equal limit prices both queries are
    [False]; and for two [Ask]s the lower-priced one's [hasBetterPrice]
    called with the higher-priced one is [True]. *)
Theorem hasBetterPrice_irreflexive (x y z low high : LimitOrder)
    (st : pystate) :
  hasBetterPrice x x st = (false, st) ∧
  (l_class y = l_class z → limit_price y = limit_price z →
     hasBetterPrice y z st = (false, st) ∧
     hasBetterPrice z y st = (false, st)) ∧
  (l_class low = Ask → l_class high = Ask →
     limit_price low < limit_price high →
     hasBetterPrice low high st = (true, st)).
Proof.
  split; [|split].
  - rewrite hasBetterPrice_same by reflexivity.
    destruct (is_buy_order (l_class x)); f_equal; lia.
  - intros Hc Hp.
    rewrite (hasBetterPrice_same y z), (hasBetterPrice_same z y) by congruence.
    rewrite Hp.
    split; [destruct (is_buy_order (l_class y))
           |destruct (is_buy_order (l_class z))]; f_equal; lia.
  - intros Hl Hh Hlt.
    rewrite hasBetterPrice_same by congruence.
    rewrite Hl. cbn. f_equal. lia.
Qed.

(** C4.  With two limit orders at addresses [a] and [b]: [isMatch] on orders
    of the same direction, and [hasBetterPrice] on orders of opposite
    directions, evaluate to [False] (no exception), print exactly one line,
    the warning, and leave every order of the store as it was. *)
Theorem misuse_warns_and_returns_false (st : pystate) (a b : nat)
    (self other : LimitOrder) :
  objs st !! a = Some (OLimit self) →
  objs st !! b = Some (OLimit other) →
  (l_class self = l_class other →
     exec (Call_isMatch a b) st =
       (Bool false,
        mkState (objs st) (next_order_id st)
                (stdout st ++ [isMatch_warning self other]))) ∧
  (l_class self ≠ l_class other →
     exec (Call_hasBetterPrice a b) st =
       (Bool false,
        mkState (objs st) (next_order_id st)
                (stdout st ++ [hasBetterPrice_warning self other]))).
Proof.
  intros Ha Hb. cbn. unfold limit_call. rewrite Ha, Hb.
  split; intros Hc.
  - unfold isMatch. rewrite Hc.
    destruct (l_class other); reflexivity.
  - unfold hasBetterPrice.
    destruct (l_class self), (l_class other); try congruence; reflexivity.
Qed.

End OrderProperties.

(* ===================================================================== *)
(** ** Copies, and what a program can change                              *)
(* ===================================================================== *)

Section StoreProperties.
Import OrderTypes CopySpec.
Context `{Rendering}.

Lemma deepcopy_id (v : pyval) : deepcopy v = v.
Proof.
  revert v. fix IH 1. intros [z|s|items]; cbn; try reflexivity.
  f_equal. induction items as [|x xs IHxs]; cbn; [reflexivity|].
  by rewrite IH, IHxs.
Qed.

Lemma deepcopy_tag_id (t : option pyval) : deepcopy_tag t = t.
Proof. destruct t; cbn; [by rewrite deepcopy_id | done]. Qed.

Lemma order_copy_eq (o : order) (st : pystate) :
  order_copy o st = (copied o, st).
Proof. by destruct o as [[c []]|[c [] lp]|[[] d]]. Qed.

(** On tag values a deep copy is the value again, so the two copies of an
    order agree. *)
Lemma order_deepcopy_copy (o : order) : order_deepcopy o = order_copy o.
Proof.
  destruct o as [m|l|b]; unfold order_deepcopy, order_copy,
    MarketOrder_deepcopy, LimitOrder_deepcopy, BasketOrder_deepcopy,
    MarketOrder_copy, LimitOrder_copy;
    by rewrite ?deepcopy_tag_id.
Qed.

Lemma order_deepcopy_eq (o : order) (st : pystate) :
  order_deepcopy o st = (copied o, st).
Proof. rewrite order_deepcopy_copy. apply order_copy_eq. Qed.

Lemma fresh_address (st : pystate) : objs st !! fresh (dom (objs st)) = None.
Proof. apply not_elem_of_dom, is_fresh. Qed.

Lemma exec_copy (s : stmt) (a : nat) (o : order) (st : pystate) :
  s = Copy a ∨ s = Deepcopy a →
  objs st !! a = Some o →
  exec s st =
    (Ref (fresh (dom (objs st))),
     mkState (<[fresh (dom (objs st)) := copied o]> (objs st))
             (next_order_id st) (stdout st)).
Proof.
  intros [-> | ->] Ha; cbn; rewrite Ha;
    unfold mbind, M_bind, bind;
    [rewrite order_copy_eq | rewrite order_deepcopy_eq]; reflexivity.
Qed.

Lemma class_of_copied (o : order) : class_of (copied o) = class_of o.
Proof. by destruct o. Qed.

Lemma class_of_on_base (f : Order → Order) (o : order) :
  class_of (on_base f o) = class_of o.
Proof. by destruct o. Qed.

Lemma is_buy_order_of_class (o o' : order) :
  class_of o' = class_of o → order_is_buy_order o' = order_is_buy_order o.
Proof. destruct o, o'; cbn; congruence. Qed.

Lemma limit_call_objs (f : LimitOrder → LimitOrder → M bool) (a b : nat)
    (st : pystate) :
  (∀ x y st0, objs (f x y st0).2 = objs st0) →
  objs (limit_call f a b st).2 = objs st.
Proof.
  intros Hf. unfold limit_call.
  destruct (objs st !! a) as [[| self |]|]; try reflexivity.
  destruct (objs st !! b) as [[| other |]|]; try reflexivity.
  specialize (Hf self other st). by destruct (f self other st).
Qed.

Lemma isMatch_objs (x y : LimitOrder) (st : pystate) :
  objs (isMatch x y st).2 = objs st.
Proof.
  unfold isMatch.
  destruct (l_class x), (l_class y); reflexivity.
Qed.

Lemma hasBetterPrice_objs (x y : LimitOrder) (st : pystate) :
  objs (hasBetterPrice x y st).2 = objs st.
Proof.
  unfold hasBetterPrice.
  destruct (l_class x), (l_class y); reflexivity.
Qed.

Lemma Order_init_objs ag t sy q oid tg (st : pystate) :
  objs (Order_init ag t sy q oid tg st).2 = objs st.
Proof. by destruct oid. Qed.

(** A statement changes the class of no object. *)
Lemma exec_keeps_class (s : stmt) (st : pystate) (a : nat) (o : order) :
  objs st !! a = Some o →
  ∃ o', objs (exec s st).2 !! a = Some o' ∧ class_of o' = class_of o.
Proof.
  intros Ha.
  assert (Hfresh : ∀ m : gmap nat order, m !! a = Some o → fresh (dom m) ≠ a).
  { intros m Hm Heq.
    pose proof (is_fresh (dom m)) as Hf. rewrite Heq in Hf.
    apply Hf, elem_of_dom. eauto. }
  destruct s as [c ag t sy q oid tg|c ag t sy q lp oid tg|ag t sy q d oid
                |a0|a0|a0 p|a0 tg|a0 b0|a0 b0|a0 b0].
  - exists o. split; [|done]. destruct oid; step_m;
      by rewrite lookup_insert_ne by by apply Hfresh.
  - exists o. split; [|done]. destruct oid; step_m;
      by rewrite lookup_insert_ne by by apply Hfresh.
  - exists o. split; [|done]. destruct oid; step_m;
      by rewrite lookup_insert_ne by by apply Hfresh.
  - destruct (objs st !! a0) as [o0|] eqn:Ha0.
    + rewrite (exec_copy (Copy a0) a0 o0) by auto. cbn.
      exists o. by rewrite lookup_insert_ne by by apply Hfresh.
    + cbn. rewrite Ha0. cbn. eauto.
  - destruct (objs st !! a0) as [o0|] eqn:Ha0.
    + rewrite (exec_copy (Deepcopy a0) a0 o0) by auto. cbn.
      exists o. by rewrite lookup_insert_ne by by apply Hfresh.
    + cbn. rewrite Ha0. cbn. eauto.
  - cbn. destruct (objs st !! a0) as [o0|] eqn:Ha0; step_m; [|eauto].
    destruct (decide (a0 = a)) as [->|Hne].
    + rewrite lookup_insert_eq. eexists. split; [done|].
      rewrite class_of_on_base. congruence.
    + rewrite lookup_insert_ne by done. eauto.
  - cbn. destruct (objs st !! a0) as [o0|] eqn:Ha0; step_m; [|eauto].
    destruct (decide (a0 = a)) as [->|Hne].
    + rewrite lookup_insert_eq. eexists. split; [done|].
      rewrite class_of_on_base. congruence.
    + rewrite lookup_insert_ne by done. eauto.
  - cbn. rewrite limit_call_objs by apply isMatch_objs. eauto.
  - cbn. rewrite limit_call_objs by done. eauto.
  - cbn. rewrite limit_call_objs by apply hasBetterPrice_objs. eauto.
Qed.

Lemma run_keeps_class (p : list stmt) (st : pystate) (a : nat) (o : order) :
  objs st !! a = Some o →
  ∃ o', objs (run p st) !! a = Some o' ∧ class_of o' = class_of o.
Proof.
  revert st o. induction p as [|s p IH]; intros st o Ha; cbn; [eauto|].
  destruct (exec_keeps_class s st a o Ha) as (o1 & H1 & Hc1).
  destruct (IH _ _ H1) as (o2 & H2 & Hc2).
  exists o2. split; [done | congruence].
Qed.

(** C5, as the code has it.  [copy] and [deepcopy] of an order of any class
    make a new object of the same class with the original's [order_id],
    [quantity], price fields ([limit_price] of a limit order), [dollar] flag
    and current [fill_price]; the tag is the original's for market and limit
    orders, and the constructor's default, [None], for a basket order, whose
    constructor takes no tag.  Assigning a [fill_price] to the copy afterwards
    leaves the original as it was. *)
Theorem copy_preserves_fields (s : stmt) (a : nat) (o : order)
    (st : pystate) :
  s = Copy a ∨ s = Deepcopy a →
  objs st !! a = Some o →
  ∃ b o',
    (exec s st).1 = Ref b ∧ b ≠ a ∧ objs st !! b = None ∧
    objs (exec s st).2 !! b = Some o' ∧
    objs (exec s st).2 !! a = Some o ∧
    class_of o' = class_of o ∧
    order_id (base_of o') = order_id (base_of o) ∧
    quantity (base_of o') = quantity (base_of o) ∧
    price_fields o' = price_fields o ∧
    dollar_flag o' = dollar_flag o ∧
    fill_price (base_of o') = fill_price (base_of o) ∧
    (class_of o ≠ CBasket → tag (base_of o') = tag (base_of o)) ∧
    (class_of o = CBasket → tag (base_of o') = None) ∧
    ∀ p, let st2 := (exec (Set_fill_price b p) (exec s st).2).2 in
         objs st2 !! a = Some o ∧
         fill_price ∘ base_of <$> objs st2 !! b = Some p.
Proof.
  intros Hs Ha. rewrite (exec_copy s a o st Hs Ha). cbn [fst snd objs].
  pose proof (fresh_address st) as Hfresh.
  set (b := fresh (dom (objs st))) in *.
  assert (Hne : b ≠ a) by congruence.
  exists b, (copied o). rewrite lookup_insert_eq, lookup_insert_ne by done.
  repeat split; try done; try by destruct o.
  - step_m. rewrite lookup_insert_eq. step_m.
    by rewrite !lookup_insert_ne by done.
  - step_m. rewrite lookup_insert_eq. step_m.
    rewrite lookup_insert_eq. by destruct o.
Qed.

(** C6.  A limit order whose [limit_price] is [sys.maxsize] or above is
    printed with [MKT] in the place of the dollarized price (an order below
    the sentinel, [other] here, is printed with its dollarized price), while
    [isMatch] and [hasBetterPrice] return the same comparisons of the two
    limit prices as for any other order: a sentinel-priced [Bid] does not
    match an [Ask] priced above it. *)
Theorem sentinel_price_is_display_only (l other : LimitOrder)
    (st : pystate) :
  sys_maxsize ≤ limit_price l →
  limit_info l = "MKT" ∧
  (silent_mode = false →
     LimitOrder_str l =
       "(Agent " +:+ pretty (agent_id (l_base l)) +:+ " @ "
         +:+ fmtTime (time_placed (l_base l)) +:+ tag_info l +:+ ") : "
         +:+ (if is_buy_order (l_class l) then "BUY" else "SELL") +:+ " "
         +:+ pretty (quantity (l_base l)) +:+ " " +:+ symbol (l_base l)
         +:+ " @ " +:+ "MKT" +:+ filled l) ∧
  (limit_price other < sys_maxsize →
     limit_info other = dollarize (limit_price other)) ∧
  (l_class l ≠ l_class other →
     isMatch l other st =
       ((if is_buy_order (l_class l)
         then limit_price other <=? limit_price l
         else limit_price l <=? limit_price other), st) ∧
     isMatch other l st =
       ((if is_buy_order (l_class other)
         then limit_price l <=? limit_price other
         else limit_price other <=? limit_price l), st)) ∧
  (l_class l = l_class other →
     hasBetterPrice l other st =
       ((if is_buy_order (l_class l)
         then limit_price other <? limit_price l
         else limit_price l <? limit_price other), st) ∧
     hasBetterPrice other l st =
       ((if is_buy_order (l_class other)
         then limit_price l <? limit_price other
         else limit_price other <? limit_price l), st)) ∧
  (l_class l = Bid → l_class other = Ask →
     limit_price l < limit_price other →
     isMatch l other st = (false, st) ∧ isMatch other l st = (false, st)).
Proof.
  intros Hmax.
  assert (Hinfo : limit_info l = "MKT").
  { unfold limit_info. by rewrite (proj2 (Z.ltb_ge _ _) Hmax). }
  split; [done|]. split; [|split; [|split; [|split]]].
  - intros Hs. unfold LimitOrder_str. by rewrite Hs, Hinfo.
  - intros Hlt. unfold limit_info. by rewrite (proj2 (Z.ltb_lt _ _) Hlt).
  - intros Hne. split; by apply isMatch_opposite.
  - intros Heq. split; by apply hasBetterPrice_same.
  - intros Hl Ho Hlt.
    rewrite (isMatch_opposite l other), (isMatch_opposite other l)
      by congruence.
    rewrite Hl, Ho. cbn. split; f_equal; lia.
Qed.

(** C7.  [is_buy_order] is [True] for [BuyMarket] and [Bid] and [False] for
    [SellMarket] and [Ask]; whatever statements a program runs (constructions,
    copies, assignments to [fill_price] and [tag], calls of [isMatch],
    [hasEqPrice] and [hasBetterPrice]), an object keeps its class and with it
    its [is_buy_order]; a constructed market or limit order has the
    [is_buy_order] of the class it was built from, and a copy that of the
    order it was copied from. *)
Theorem is_buy_order_fixed_per_class :
  (is_buy_order BuyMarket = true ∧ is_buy_order Bid = true ∧
   is_buy_order SellMarket = false ∧ is_buy_order Ask = false) ∧
  (∀ (p : list stmt) (st : pystate) (a : nat) (o : order),
     objs st !! a = Some o →
     ∃ o', objs (run p st) !! a = Some o' ∧ class_of o' = class_of o ∧
           order_is_buy_order o' = order_is_buy_order o) ∧
  (∀ c ag t sy q oid tg (st : pystate),
     ∃ b o', exec (New_MarketOrder c ag t sy q oid tg) st
               = (Ref b, (exec (New_MarketOrder c ag t sy q oid tg) st).2) ∧
             objs (exec (New_MarketOrder c ag t sy q oid tg) st).2 !! b
               = Some o' ∧
             class_of o' = CMarket c ∧
             order_is_buy_order o' = Some (is_buy_order c)) ∧
  (∀ c ag t sy q lp oid tg (st : pystate),
     ∃ b o', exec (New_LimitOrder c ag t sy q lp oid tg) st
               = (Ref b, (exec (New_LimitOrder c ag t sy q lp oid tg) st).2) ∧
             objs (exec (New_LimitOrder c ag t sy q lp oid tg) st).2 !! b
               = Some o' ∧
             class_of o' = CLimit c ∧
             order_is_buy_order o' = Some (is_buy_order c)) ∧
  (∀ (s : stmt) (a : nat) (o : order) (st : pystate),
     s = Copy a ∨ s = Deepcopy a →
     objs st !! a = Some o →
     ∃ b o', (exec s st).1 = Ref b ∧
             objs (exec s st).2 !! b = Some o' ∧
             class_of o' = class_of o ∧
             order_is_buy_order o' = order_is_buy_order o).
Proof.
  split; [done|]. split; [|split; [|split]].
  - intros p st a o Ha.
    destruct (run_keeps_class p st a o Ha) as (o' & Ho' & Hc).
    exists o'. split; [done|]. split; [done|].
    by apply is_buy_order_of_class.
  - intros c ag t sy q oid tg st.
    destruct oid; step_m; do 2 eexists;
      (split; [reflexivity|]); rewrite lookup_insert_eq; done.
  - intros c ag t sy q lp oid tg st.
    destruct oid; step_m; do 2 eexists;
      (split; [reflexivity|]); rewrite lookup_insert_eq; done.
  - intros s a o st Hs Ha.
    rewrite (exec_copy s a o st Hs Ha). cbn [fst snd objs].
    exists (fresh (dom (objs st))), (copied o).
    rewrite lookup_insert_eq. repeat split; try done.
    + apply class_of_copied.
    + apply is_buy_order_of_class, class_of_copied.
Qed.

End StoreProperties.

(* ===================================================================== *)
(** ** Properties of the external-file oracle                             *)
(* ===================================================================== *)

Section OracleProperties.
Import ExternalFileOracle.
Context {num rng : Type} `{PriceOps num} `{Normal num rng}.

Lemma py_index_first {A} (l : list A) (x : A) :
  head l = Some x → py_index l 0 = Ok x.
Proof.
  destruct l as [|y l]; intros [= ->]. unfold py_index. cbn [length].
  replace ((0 <=? 0) && (0 <? Z.of_nat (S (length l)))) with true
    by (symmetry; apply andb_true_iff; split; [done | apply Z.ltb_lt; lia]).
  reflexivity.
Qed.

Lemma py_index_last {A} (l : list A) (x : A) :
  last l = Some x → py_index l (-1) = Ok x.
Proof.
  intros Hl. unfold py_index. cbn [Z.leb Z.compare Z.opp].
  assert (Hlen : (0 < length l)%nat).
  { destruct l; [discriminate | cbn; lia]. }
  replace ((0 <=? Z.of_nat (length l) + -1)
           && (Z.of_nat (length l) + -1 <? Z.of_nat (length l))) with true
    by (symmetry; apply andb_true_iff; split;
        [apply Z.leb_le | apply Z.ltb_lt]; lia).
  replace (Z.to_nat (Z.of_nat (length l) + -1)) with (pred (length l)) by lia.
  by rewrite <- last_lookup, Hl.
Qed.

(** In a series in chronological order the first timestamp is not later
    than the last. *)
Lemma sorted_first_le_last (index : list Z) (t0 tn : Z) :
  StronglySorted Z.le index →
  head index = Some t0 → last index = Some tn → t0 ≤ tn.
Proof.
  intros Hs Hh Hl. destruct index as [|x index]; [discriminate|].
  injection Hh as ->. inversion_clear Hs as [|? ? _ Hall].
  destruct index as [|y index]; [by injection Hl as -> |].
  rewrite last_cons_cons in Hl.
  rewrite Forall_forall in Hall. apply Hall.
  rewrite last_lookup in Hl. by eapply list_elem_of_lookup_2.
Qed.

(** Before the first timestamp: the first value, the oracle untouched. *)
Lemma getPriceAtTime_before_open (self : oracle num) (symbol : string)
    (series : list (Z * num)) (t0 : Z) (v0 : num) (t : Z) :
  fundamentals self !! symbol = Some series →
  head series = Some (t0, v0) →
  t < t0 →
  getPriceAtTime symbol t self = (Ok v0, self).
Proof.
  intros Hf Hh Hlt. destruct series as [|[t0' v0'] series]; [discriminate|].
  injection Hh as -> ->.
  unfold getPriceAtTime, mbind, O_bind, obind, get_fundamental, lift.
  rewrite Hf.
  rewrite (py_index_first _ t0) by done.
  destruct (last (((t0, v0) :: series).*1)) as [tn|] eqn:Hlast.
  - rewrite (py_index_last _ tn) by done.
    rewrite (proj2 (Z.ltb_lt _ _) Hlt).
    by rewrite (py_index_first _ v0).
  - exfalso. destruct (proj2 (last_is_Some (((t0, v0) :: series).*1)))
      as [? Hx]; [done | congruence].
Qed.

(** After the last timestamp and not before the first: the last value, the
    oracle untouched. *)
Lemma getPriceAtTime_after_close (self : oracle num) (symbol : string)
    (series : list (Z * num)) (t0 tn : Z) (v0 vn : num) (t : Z) :
  fundamentals self !! symbol = Some series →
  head series = Some (t0, v0) →
  last series = Some (tn, vn) →
  t0 ≤ t → tn < t →
  getPriceAtTime symbol t self = (Ok vn, self).
Proof.
  intros Hf Hh Hl Hle Hlt.
  unfold getPriceAtTime, mbind, O_bind, obind, get_fundamental, lift.
  rewrite Hf.
  rewrite (py_index_first (series.*1) t0)
    by (destruct series as [|[] ?]; [done | by injection Hh as -> ->]).
  rewrite (py_index_last (series.*1) tn) by by rewrite fmap_last, Hl.
  rewrite (proj2 (Z.ltb_ge _ _)) by lia.
  rewrite (proj2 (Z.ltb_lt _ _) Hlt).
  by rewrite (py_index_last (series.*2) vn) by by rewrite fmap_last, Hl.
Qed.

(** C8.  With [sigma_n == 0], [observePrice] returns
    [int(round(getPriceAtTime(symbol, current_time)))] (or raises what
    [getPriceAtTime] or the rounding raises), leaves the oracle as
    [getPriceAtTime] leaves it and the generator as it was; two calls that
    differ only in [random_state], [None] included, return the same. *)
Theorem observePrice_noiseless (symbol : string) (current_time : Z)
    (sigma_n : num) (random_state random_state' : option rng)
    (self : oracle num) :
  is_zero sigma_n = true →
  observePrice symbol current_time sigma_n random_state self =
    (match (getPriceAtTime symbol current_time self).1 with
     | Ok true_price => int_round true_price
     | Raise e => Raise e
     end,
     (getPriceAtTime symbol current_time self).2,
     random_state) ∧
  (observePrice symbol current_time sigma_n random_state self).1 =
  (observePrice symbol current_time sigma_n random_state' self).1.
Proof.
  intros Hz. unfold observePrice. rewrite Hz.
  by destruct (getPriceAtTime symbol current_time self) as [[p|e] self'].
Qed.

(** C9, as the code has it.  For a symbol with a series, [getPriceAtTime] at
    a time strictly before the series' first timestamp returns the first
    value, and at a time strictly after its last timestamp and not before its
    first the last value (so at every time after the last timestamp of a
    series whose first timestamp is not later than its last); in both cases
    the value is the stored one and the oracle, its [f_log] included, is as
    before. *)
Theorem getPriceAtTime_clamped (self : oracle num) (symbol : string)
    (series : list (Z * num)) (t0 tn : Z) (v0 vn : num) (query_time : Z) :
  fundamentals self !! symbol = Some series →
  head series = Some (t0, v0) →
  last series = Some (tn, vn) →
  (query_time < t0 →
     getPriceAtTime symbol query_time self = (Ok v0, self) ∧
     f_log (getPriceAtTime symbol query_time self).2 !! symbol
       = f_log self !! symbol) ∧
  (tn < query_time → t0 ≤ query_time →
     getPriceAtTime symbol query_time self = (Ok vn, self) ∧
     f_log (getPriceAtTime symbol query_time self).2 !! symbol
       = f_log self !! symbol).
Proof.
  intros Hf Hh Hl. split.
  - intros Hlt.
    by rewrite (getPriceAtTime_before_open self symbol series t0 v0).
  - intros Hlt Hge.
    by rewrite (getPriceAtTime_after_close self symbol series t0 tn v0 vn).
Qed.

End OracleProperties.

(** The loop of [bisect_left] ends within the turns it is given: with
    [hi - lo] turns to spare, more turns change nothing. *)
Lemma bisect_loop_enough (n m : nat) (a : list Z) (x : Z) (lo hi : nat) :
  (hi ≤ length a)%nat → (hi - lo < n)%nat → (hi - lo < m)%nat →
  ExternalFileOracle.bisect_loop n a x lo hi =
  ExternalFileOracle.bisect_loop m a x lo hi.
Proof.
  revert m lo hi. induction n as [|n IH]; intros m lo hi Hlen Hn Hm; [lia|].
  destruct m as [|m]; [lia|]. cbn [ExternalFileOracle.bisect_loop].
  destruct (lo <? hi)%nat eqn:Hlt; [|done].
  apply Nat.ltb_lt in Hlt.
  assert (Hmid : (lo ≤ (lo + hi) / 2 < hi)%nat).
  { split; [apply Nat.div_le_lower_bound | apply Nat.Div0.div_lt_upper_bound];
      lia. }
  destruct (a !! ((lo + hi) / 2)%nat) as [v|]; [|done].
  destruct (v <? x); apply IH; lia.
Qed.

(* ===================================================================== *)
(** ** Properties of the market-replay agent                              *)
(* ===================================================================== *)

Section ReplayProperties.
Import MarketReplayAgentUSD.
Context {St ord : Type} `{TradingAgent St ord}.

(** On a one-element list [placeOrder] runs the body once, at any depth
    that allows a call. *)
Lemma placeOrder_single (depth : nat) (t : Z) (r : record)
    (self : agent St ord) :
  placeOrder (S depth) t [r] self = Some (placeOrder_record t r self).
Proof. reflexivity. Qed.

(** On any other list it goes through the records, one call each. *)
Lemma placeOrder_many (depth : nat) (t : Z) (l : list record)
    (self : agent St ord) :
  length l ≠ 1%nat →
  placeOrder (S depth) t l self =
    foldl (λ acc ind_order,
             self' ← acc; placeOrder depth t [ind_order] self')
          (Some self) l.
Proof.
  intros Hl. apply Nat.eqb_neq in Hl.
  transitivity
    (if (length l =? 1)%nat then
       match l with
       | order0 :: _ => Some (placeOrder_record t order0 self)
       | [] => None
       end
     else
       foldl (λ acc ind_order,
                self' ← acc; placeOrder depth t [ind_order] self')
             (Some self) l); [reflexivity|].
  by rewrite Hl.
Qed.

(** Record by record, from [acc]. *)
Lemma foldl_records (depth : nat) (t : Z) (l : list record)
    (acc : option (agent St ord)) :
  foldl (λ acc ind_order,
           self' ← acc; placeOrder (S depth) t [ind_order] self') acc l =
  foldl (λ acc ind_order, placeOrder_record t ind_order <$> acc) acc l.
Proof.
  revert acc. induction l as [|r l IH]; intros acc; [done|].
  cbn [foldl]. rewrite IH. by destruct acc.
Qed.

Lemma foldl_records_Some (t : Z) (l : list record) (self : agent St ord) :
  is_Some (foldl (λ acc ind_order, placeOrder_record t ind_order <$> acc)
                 (Some self) l).
Proof.
  revert self. induction l as [|r l IH]; intros self; cbn; [eauto|].
  apply IH.
Qed.

(** A record for an order the agent does not hold, and that is not a new
    order of positive size, changes nothing. *)
Lemma placeOrder_record_ignored (t : Z) (r : record) (self : agent St ord) :
  orders_get (inherited self) (Order_ID r) = None →
  Type_ r ≠ "R" ∨ ¬ 0 < Size r →
  placeOrder_record t r self = self.
Proof.
  intros Hnone Hskip. unfold placeOrder_record. rewrite Hnone.
  destruct Hskip as [Hty|Hsz].
  - by rewrite (proj2 (String.eqb_neq _ _) Hty), andb_false_r.
  - rewrite (proj2 (Z.ltb_ge 0 (Size r))) by lia.
    by rewrite andb_false_r.
Qed.

(** C10.  On a list of two or more records [placeOrder] returns, and what it
    does is what the calls of [placeOrder] on the one-element lists of its
    records do, one after the other in the order of the list: the agent they
    leave, with its sequence of actions, is the same.  On a single record
    whose [Order_ID] names no order of the agent and whose [Type] is not
    ['R'] or whose [Size] is not above [0], [placeOrder] leaves the agent as
    it is: no order is placed, modified or cancelled. *)
Theorem placeOrder_record_by_record (depth : nat) (currentTime : Z)
    (order : list record) (r : record) (self : agent St ord) :
  (2 ≤ depth)%nat →
  ((2 ≤ length order)%nat →
     is_Some (placeOrder depth currentTime order self) ∧
     placeOrder depth currentTime order self =
       foldl (λ acc ind_order,
                self' ← acc; placeOrder depth currentTime [ind_order] self')
             (Some self) order) ∧
  (orders_get (inherited self) (Order_ID r) = None →
   Type_ r ≠ "R" ∨ ¬ 0 < Size r →
   placeOrder depth currentTime [r] self = Some self ∧
   actions <$> placeOrder depth currentTime [r] self = Some (actions self)).
Proof.
  intros Hd. destruct depth as [|[|depth]]; try lia. split.
  - intros Hlen.
    rewrite placeOrder_many by lia.
    rewrite (foldl_records (S depth)), (foldl_records depth).
    split; [apply foldl_records_Some | done].
  - intros Hnone Hskip. rewrite placeOrder_single.
    by rewrite placeOrder_record_ignored.
Qed.

End ReplayProperties.

(* ===================================================================== *)
(** ** The properties on concrete data                                    *)
(* ===================================================================== *)

Section OrderInstances.
Import OrderTypes Samples CopySpec.

(** The four doctests of [hasBetterPrice]. *)
Example doctest_asks :
  hasBetterPrice ask10 ask100 initial = (true, initial).
Proof. reflexivity. Qed.

Example doctest_bids :
  hasBetterPrice bid10 bid100 initial = (false, initial).
Proof. reflexivity. Qed.

Example doctest_equal_bids :
  hasBetterPrice bid10 bid10 initial = (false, initial).
Proof. reflexivity. Qed.

Example doctest_ask_bid :
  hasBetterPrice ask10 bid100 initial =
    (false,
     mkState ∅ 0
       ["WARNING: hasBetterPrice() called on orders of different type: Ask vs Bid"]).
Proof. reflexivity. Qed.

(** [Bid(100)] and [Ask(90)] match, whichever is asked. *)
Lemma isMatch_buy_sell_witness :
  l_class bid100 = Bid ∧ l_class ask90 = Ask ∧
  limit_price bid100 >= limit_price ask90 ∧
  isMatch bid100 ask90 initial = (true, initial) ∧
  isMatch ask90 bid100 initial = (true, initial).
Proof.
  assert (Hge : limit_price bid100 >= limit_price ask90) by (cbn; lia).
  split; [reflexivity|]. split; [reflexivity|]. split; [exact Hge|].
  destruct (isMatch_buy_sell bid100 ask90 initial eq_refl eq_refl)
    as (Htrue & _ & _).
  exact (Htrue Hge).
Defined.

(** C2 as stated fails: [Bid(100).hasBetterPrice(Bid(10))] is [True], not
    [False], and [Bid(10).hasBetterPrice(Bid(100))] is [False], not [True]. *)
Lemma hasBetterPrice_bids_counterexample :
  ¬ ((hasBetterPrice bid100 bid10 initial).1 = false ∧
     (hasBetterPrice bid10 bid100 initial).1 = true).
Proof. intros [Hhigh _]. vm_compute in Hhigh. discriminate. Qed.

Lemma hasBetterPrice_bids_witness :
  l_class bid100 = Bid ∧ l_class bid10 = Bid ∧
  limit_price bid10 < limit_price bid100 ∧
  hasBetterPrice bid100 bid10 initial = (true, initial) ∧
  hasBetterPrice bid10 bid100 initial = (false, initial).
Proof.
  assert (Hlt : limit_price bid10 < limit_price bid100) by (cbn; lia).
  split; [reflexivity|]. split; [reflexivity|]. split; [exact Hlt|].
  exact (hasBetterPrice_bids bid100 bid10 initial eq_refl eq_refl Hlt).
Defined.

(** [Ask(10).hasBetterPrice(Ask(100))] is [True]; two bids at 100 are not
    better than one another. *)
Lemma hasBetterPrice_irreflexive_witness :
  hasBetterPrice bid100 bid100 initial = (false, initial) ∧
  hasBetterPrice bid100 (limit_order Bid 100) initial = (false, initial) ∧
  hasBetterPrice ask10 ask100 initial = (true, initial).
Proof.
  assert (Hlt : limit_price ask10 < limit_price ask100) by (cbn; lia).
  destruct (hasBetterPrice_irreflexive bid100 bid100 (limit_order Bid 100)
              ask10 ask100 initial) as (Hirr & Heq & Hask).
  split; [exact Hirr|]. split.
  - exact (proj1 (Heq eq_refl eq_refl)).
  - exact (Hask eq_refl eq_refl Hlt).
Defined.

(** In [two_orders]: the bid asked whether it matches itself, and whether it
    is better priced than the ask. *)
Lemma misuse_warns_and_returns_false_witness :
  (exec (Call_isMatch 0 0) two_orders).1 = Bool false ∧
  (exec (Call_hasBetterPrice 0 1) two_orders).1 = Bool false ∧
  objs (exec (Call_isMatch 0 0) two_orders).2 = objs two_orders ∧
  objs (exec (Call_hasBetterPrice 0 1) two_orders).2 = objs two_orders.
Proof.
  set (bid := mkLimitOrder Bid (mkOrder 1 0 "USD/RUB" 10 0 None None) 100).
  set (ask := mkLimitOrder Ask
                (mkOrder 2 0 "USD/RUB" 10 1 None
                   (Some (VList [VInt 1; VStr "a"]))) 90).
  assert (H0 : objs two_orders !! 0%nat = Some (OLimit bid))
    by (vm_compute; reflexivity).
  assert (H1 : objs two_orders !! 1%nat = Some (OLimit ask))
    by (vm_compute; reflexivity).
  destruct (misuse_warns_and_returns_false two_orders 0 0 bid bid H0 H0)
    as [Hm _].
  destruct (misuse_warns_and_returns_false two_orders 0 1 bid ask H0 H1)
    as [_ Hb].
  rewrite (Hm eq_refl).
  rewrite Hb by discriminate.
  repeat split.
Defined.

(** C5 as stated fails on the tag of a basket order: the copy of the tagged
    basket has no tag. *)
Lemma copy_basket_tag_counterexample :
  ¬ copy_keeps_tag (Copy 0) 0 tagged_basket.
Proof.
  intros (b & o & o' & Ha & Hb & Hb' & Htag).
  vm_compute in Ha. injection Ha as <-.
  vm_compute in Hb. injection Hb as <-.
  vm_compute in Hb'. injection Hb' as <-.
  discriminate Htag.
Qed.

(** The deep copy of the ask of [two_orders], whose tag is a list. *)
Lemma copy_preserves_fields_witness :
  ∃ b o',
    (exec (Deepcopy 1) two_orders).1 = Ref b ∧ b ≠ 1%nat ∧
    objs (exec (Deepcopy 1) two_orders).2 !! b = Some o' ∧
    order_id (base_of o') = 1 ∧
    price_fields o' = Some 90 ∧
    tag (base_of o') = Some (VList [VInt 1; VStr "a"]).
Proof.
  set (ask := OLimit (mkLimitOrder Ask
                (mkOrder 2 0 "USD/RUB" 10 1 None
                   (Some (VList [VInt 1; VStr "a"]))) 90)).
  assert (H1 : objs two_orders !! 1%nat = Some ask)
    by (vm_compute; reflexivity).
  destruct (copy_preserves_fields (Deepcopy 1) 1 ask two_orders
              (or_intror eq_refl) H1)
    as (b & o' & Hr & Hne & _ & Hb & _ & _ & Hid & _ & Hp & _ & _ & Ht & _).
  exists b, o'. repeat split; try assumption.
  apply Ht. discriminate.
Defined.

(** A bid at [sys.maxsize] against an ask one cent above. *)
Lemma sentinel_price_is_display_only_witness :
  sys_maxsize ≤ limit_price bid_max ∧
  limit_info bid_max = "MKT" ∧
  isMatch bid_max ask_above_max initial = (false, initial).
Proof.
  assert (Hmax : sys_maxsize ≤ limit_price bid_max) by (cbn; lia).
  destruct (sentinel_price_is_display_only bid_max ask_above_max initial Hmax)
    as (Hinfo & _ & _ & _ & _ & Hno).
  split; [exact Hmax|]. split; [exact Hinfo|].
  apply Hno; [reflexivity | reflexivity | cbn; lia].
Defined.

(** The bid of [two_orders] through a program that copies it, fills and tags
    it, and compares it. *)
Lemma is_buy_order_fixed_per_class_witness :
  ∃ o', objs (run [Copy 0; Set_fill_price 0 (Some 95); Set_tag 0 None;
                   Call_isMatch 0 1; Deepcopy 0] two_orders) !! 0%nat
          = Some o' ∧
        class_of o' = CLimit Bid ∧
        order_is_buy_order o' = Some true.
Proof.
  set (bid := OLimit (mkLimitOrder Bid
                (mkOrder 1 0 "USD/RUB" 10 0 None None) 100)).
  assert (H0 : objs two_orders !! 0%nat = Some bid)
    by (vm_compute; reflexivity).
  destruct is_buy_order_fixed_per_class as (_ & Hrun & _).
  destruct (Hrun [Copy 0; Set_fill_price 0 (Some 95); Set_tag 0 None;
                  Call_isMatch 0 1; Deepcopy 0] two_orders 0%nat bid H0)
    as (o' & Ho' & Hc & Hb).
  exists o'. repeat split; assumption.
Defined.

End OrderInstances.

Section OracleInstances.
Import ExternalFileOracle OracleSamples.

(** [observePrice] without noise on the sample series, with and without a
    generator. *)
Lemma observePrice_noiseless_witness :
  is_zero 0%Q = true ∧
  (observePrice "ABC" 15 0%Q None abc_oracle).1 =
  (observePrice "ABC" 15 0%Q (Some 7) abc_oracle).1.
Proof.
  assert (Hz : is_zero 0%Q = true) by reflexivity.
  split; [exact Hz|].
  exact (proj2 (observePrice_noiseless "ABC" 15 0%Q None (Some 7)
                  abc_oracle Hz)).
Defined.

(** C9 as stated fails on a series that is not in chronological order: 15
    is strictly later than the last timestamp, 10, of [unordered_series], yet
    the value returned is the first one, not the last. *)
Lemma getPriceAtTime_clamped_counterexample :
  ¬ (last unordered_series = Some (10, inject_Z 2) → 10 < 15 →
     (getPriceAtTime "ABC" 15 unordered_oracle).1 = Ok (inject_Z 2)).
Proof.
  intros Hclaim. specialize (Hclaim eq_refl eq_refl).
  vm_compute in Hclaim. discriminate Hclaim.
Qed.

(** The sample series, asked before its first and after its last
    timestamp. *)
Lemma getPriceAtTime_clamped_witness :
  getPriceAtTime "ABC" 5 abc_oracle = (Ok (inject_Z 100), abc_oracle) ∧
  getPriceAtTime "ABC" 31 abc_oracle = (Ok (inject_Z 105), abc_oracle).
Proof.
  assert (Hf : fundamentals abc_oracle !! "ABC" = Some abc_series)
    by (vm_compute; reflexivity).
  destruct (getPriceAtTime_clamped abc_oracle "ABC" abc_series 10 30
              (inject_Z 100) (inject_Z 105) 5 Hf eq_refl eq_refl)
    as [Hbefore _].
  destruct (getPriceAtTime_clamped abc_oracle "ABC" abc_series 10 30
              (inject_Z 100) (inject_Z 105) 31 Hf eq_refl eq_refl)
    as [_ Hafter].
  split.
  - apply Hbefore. lia.
  - apply Hafter; lia.
Defined.

End OracleInstances.

Section ReplayInstances.
Import MarketReplayAgentUSD ReplaySamples.

(** A new order, a record of type ['A'], a modification and a
    cancellation, replayed in one call; the record of type ['A'] alone. *)
Lemma placeOrder_record_by_record_witness :
  placeOrder 2 7 [rec_new; rec_other; rec_modify; rec_cancel] replay_agent =
    foldl (λ acc ind_order,
             self' ← acc; placeOrder 2 7 [ind_order] self')
          (Some replay_agent)
          [rec_new; rec_other; rec_modify; rec_cancel] ∧
  placeOrder 2 7 [rec_other] replay_agent = Some replay_agent.
Proof.
  destruct (placeOrder_record_by_record 2 7
              [rec_new; rec_other; rec_modify; rec_cancel] rec_other
              replay_agent (le_n 2)) as [Hmany Hone].
  split.
  - apply Hmany. cbn. lia.
  - apply Hone; [reflexivity | left; discriminate].
Defined.

End ReplayInstances.

(* ===================================================================== *)
(** ** Further properties of the limit-order predicates                   *)
(* ===================================================================== *)

Section PriceOrder.
Import OrderTypes.
Context `{Rendering}.

(** X1.  Among limit orders of one direction [hasBetterPrice] is a strict
    order: if [x.hasBetterPrice(y)] is [True] then [y.hasBetterPrice(x)] is
    [False], and from [x.hasBetterPrice(y)] and [y.hasBetterPrice(z)] follows
    [x.hasBetterPrice(z)]; none of these calls prints. *)
Theorem hasBetterPrice_strict_order (x y z : LimitOrder) (st : pystate) :
  l_class x = l_class y → l_class y = l_class z →
  (hasBetterPrice x y st = (true, st) → hasBetterPrice y x st = (false, st)) ∧
  (hasBetterPrice x y st = (true, st) → hasBetterPrice y z st = (true, st) →
     hasBetterPrice x z st = (true, st)).
Proof.
  intros Hxy Hyz.
  rewrite (hasBetterPrice_same x y), (hasBetterPrice_same y x),
    (hasBetterPrice_same y z), (hasBetterPrice_same x z) by congruence.
  rewrite <- Hxy.
  destruct (is_buy_order (l_class x)); split; intros;
    simplify_eq; f_equal; lia.
Qed.

(** X2.  For two limit orders of one direction exactly one of three holds:
    the first has the better price, the two have equal prices ([hasEqPrice]),
    or the second has the better price. *)
Theorem price_trichotomy (x y : LimitOrder) (st : pystate) :
  l_class x = l_class y →
  ((hasBetterPrice x y st).1 = true ∧ hasEqPrice x y = false ∧
   (hasBetterPrice y x st).1 = false) ∨
  ((hasBetterPrice x y st).1 = false ∧ hasEqPrice x y = true ∧
   (hasBetterPrice y x st).1 = false) ∨
  ((hasBetterPrice x y st).1 = false ∧ hasEqPrice x y = false ∧
   (hasBetterPrice y x st).1 = true).
Proof.
  intros Hxy.
  rewrite (hasBetterPrice_same x y), (hasBetterPrice_same y x) by congruence.
  rewrite <- Hxy. unfold hasEqPrice. cbn [fst].
  destruct (Z.lt_trichotomy (limit_price x) (limit_price y)) as [Hlt|[Heq|Hgt]];
    destruct (is_buy_order (l_class x));
    [right; right | left | right; left | right; left | left | right; right];
    repeat split; lia.
Qed.

(** X3.  Price priority is sound for matching: if a resting order [r]
    matches an incoming order [i] of the opposite direction, then so does
    every order [r'] of [r]'s direction whose price is better than, or equal
    to, that of [r], whichever of the two orders [isMatch] is called on. *)
Theorem better_price_still_matches (r r' i : LimitOrder) (st : pystate) :
  l_class r' = l_class r → l_class r ≠ l_class i →
  (hasBetterPrice r' r st).1 = true ∨ hasEqPrice r' r = true →
  (isMatch r i st).1 = true →
  isMatch r' i st = (true, st) ∧ isMatch i r' st = (true, st).
Proof.
  intros Hrr Hri Hbetter.
  rewrite (isMatch_opposite r i), (isMatch_opposite r' i),
    (isMatch_opposite i r') by congruence.
  rewrite (hasBetterPrice_same r' r) in Hbetter by done.
  unfold hasEqPrice in Hbetter. rewrite Hrr in *. cbn [fst] in *.
  destruct (l_class r), (l_class i); try congruence; cbn in *;
    intros Hm; split; f_equal; lia.
Qed.

(** X4.  Any two limit orders are proper arguments for exactly one of
    [isMatch] and [hasBetterPrice]: one of the two calls prints its warning
    and returns [False], the other prints nothing. *)
Theorem exactly_one_warns (self other : LimitOrder) (st : pystate) :
  (isMatch self other st =
     (false, mkState (objs st) (next_order_id st)
               (stdout st ++ [isMatch_warning self other])) ∧
   (hasBetterPrice self other st).2 = st) ∨
  ((isMatch self other st).2 = st ∧
   hasBetterPrice self other st =
     (false, mkState (objs st) (next_order_id st)
               (stdout st ++ [hasBetterPrice_warning self other]))).
Proof.
  unfold isMatch, hasBetterPrice.
  destruct (l_class self), (l_class other); cbn; auto.
Qed.

End PriceOrder.

(* ===================================================================== *)
(** ** Further properties of the external-file oracle                     *)
(* ===================================================================== *)

From stdpp Require Import sorting.
Local Open Scope Z_scope.
#[local] Set Warnings "-clear-no-such-hyp".

Section Bisect.
Import ExternalFileOracle.

(** A position of the sequence read with a natural number. *)
Lemma py_index_nat {A} (l : list A) (i : nat) (x : A) :
  l !! i = Some x → py_index l (Z.of_nat i) = Ok x.
Proof.
  intros Hi. pose proof (lookup_lt_Some _ _ _ Hi) as Hlt.
  unfold py_index.
  rewrite !(proj2 (Z.leb_le 0 (Z.of_nat i))) by lia.
  rewrite (proj2 (Z.ltb_lt (Z.of_nat i) (Z.of_nat (length l)))) by lia.
  cbn. by rewrite Nat2Z.id, Hi.
Qed.

(** If the elements below position [k] are smaller than [x] and the others
    are not, the loop started around [k] ends on [k]. *)
Lemma bisect_loop_partition (turns : nat) (a : list Z) (x : Z)
    (lo hi k : nat) :
  (lo ≤ k ≤ hi)%nat → (hi ≤ length a)%nat → (hi - lo < turns)%nat →
  (∀ i v, a !! i = Some v → (i < k)%nat → v < x) →
  (∀ i v, a !! i = Some v → (k ≤ i)%nat → x ≤ v) →
  bisect_loop turns a x lo hi = k.
Proof.
  intros Hk Hhi Ht Hbelow Habove. revert lo hi Hk Hhi Ht.
  induction turns as [|turns IH]; intros lo hi Hk Hhi Ht; [lia|].
  cbn [bisect_loop].
  destruct (lo <? hi)%nat eqn:Hlt.
  - apply Nat.ltb_lt in Hlt.
    assert (Hmid : (lo ≤ (lo + hi) / 2 < hi)%nat).
    { split; [apply Nat.div_le_lower_bound
             | apply Nat.Div0.div_lt_upper_bound]; lia. }
    destruct (lookup_lt_is_Some_2 a ((lo + hi) / 2)) as [v Hv]; [lia|].
    rewrite Hv. destruct (v <? x) eqn:Hvx.
    + apply Z.ltb_lt in Hvx. apply IH; [|lia|lia].
      destruct (decide (k ≤ (lo + hi) / 2)%nat) as [Hle|]; [|lia].
      specialize (Habove _ _ Hv Hle). lia.
    + apply Z.ltb_ge in Hvx. apply IH; [|lia|lia].
      destruct (decide ((lo + hi) / 2 < k)%nat) as [Hlt'|]; [|lia].
      specialize (Hbelow _ _ Hv Hlt'). lia.
  - apply Nat.ltb_ge in Hlt. lia.
Qed.

(** [bisect_left] on a sequence that splits into the elements smaller than
    [x] and the others: the length of the first part. *)
Lemma bisect_left_partition (l1 l2 : list Z) (x : Z) :
  Forall (λ v, v < x) l1 → Forall (λ v, x ≤ v) l2 →
  bisect_left (l1 ++ l2) x = length l1.
Proof.
  intros H1 H2. unfold bisect_left.
  apply bisect_loop_partition; rewrite ?length_app; try lia.
  - intros i v Hv Hi. rewrite lookup_app_l in Hv by done.
    by apply (Forall_lookup_1 _ _ _ _ H1 Hv).
  - intros i v Hv Hi. rewrite lookup_app_r in Hv by done.
    by apply (Forall_lookup_1 _ _ _ _ H2 Hv).
Qed.

End Bisect.

(** *** The construction of the oracle *)

Module OracleInit.
Import ExternalFileOracle.

(** [pd.read_pickle] on a path: the series stored there, or [None] when the
    read raises. *)
Class ReadPickle (num : Type) :=
  read_pickle : string → option (list (Z * num)).

(** How the construction can end early: the [KeyError] of a symbol whose
    parameters name no ['fundamental_file_path'], or the exception of
    [pd.read_pickle]. *)
Inductive init_exn : Type := MissingPath | ReadFailed.

Section Init.
Context {num : Type} `{ReadPickle num}.

(** The loop of [load_fundamentals] over [self.symbols.items()], the
    symbols with their parameters in the order of the configuration;
    [fundamentals] is the dictionary filled so far (the calls of [log_print]
    left out). *)
Fixpoint load_fundamentals_loop (items : list (string * gmap string string))
    (fundamentals : gmap string (list (Z * num)))
  : init_exn + gmap string (list (Z * num)) :=
  match items with
  | [] => inr fundamentals
  | (symbol, params_dict) :: items' =>
      match params_dict !! "fundamental_file_path" with
      | None => inl MissingPath
      | Some fundamental_file_path =>
          match read_pickle fundamental_file_path with
          | Some fundamental_df =>
              load_fundamentals_loop items'
                (<[symbol := fundamental_df]> fundamentals)
          | None => inl ReadFailed
          end
      end
  end.

Definition load_fundamentals (symbols : list (string * gmap string string))
  : init_exn + gmap string (list (Z * num)) :=
  load_fundamentals_loop symbols ∅.

(** [{symbol: [] for symbol in symbols}]. *)
Definition empty_logs (symbols : list (string * gmap string string))
  : gmap string (list (Z * num)) :=
  foldl (λ logs item, <[item.1 := []]> logs) ∅ symbols.

(** [__init__]: the oracle it builds, or the exception that ends it. *)
Definition init (symbols : list (string * gmap string string))
  : init_exn + oracle num :=
  match load_fundamentals symbols with
  | inr fundamentals => inr (mkOracle None fundamentals (empty_logs symbols))
  | inl e => inl e
  end.

End Init.

End OracleInit.

Section OracleExtras.
Import ExternalFileOracle.
Context {num rng : Type} `{PriceOps num} `{Normal num rng}.

Lemma getPriceAtTime_in_range (self : oracle num) (symbol : string)
    (s1 s2 : list (Z * num)) (th tl : Z) (vh vl : num)
    (log : list (Z * num)) (t : Z) :
  fundamentals self !! symbol = Some (s1 ++ (th, vh) :: s2) →
  f_log self !! symbol = Some log →
  Forall (λ r, r.1 < t) s1 →
  Forall (λ r, t ≤ r.1) ((th, vh) :: s2) →
  (s1 = [] → th ≤ t) →
  last (((th, vh) :: s2) ++ s1) = Some (tl, vl) →
  getPriceAtTime symbol t self =
    match getInterpolatedPrice t tl th vl vh with
    | Ok p =>
        (Ok p,
         mkOracle (mkt_open self) (fundamentals self)
           (<[symbol := log ++ [(t, p)]]> (f_log self)))
    | Raise e => (Raise e, self)
    end.
Proof.
  intros Hf Hlog Hlow Hhigh Hfirst Hprev.
  set (series := s1 ++ (th, vh) :: s2) in *.
  (* the first and the last row *)
  destruct (head series) as [[t0 v0]|] eqn:Hhead;
    [|by destruct s1].
  assert (Ht0 : t0 ≤ t).
  { destruct s1 as [|[ta va] s1]; cbn in Hhead; injection Hhead as <- <-.
    - by apply Hfirst.
    - apply Forall_cons_1 in Hlow as [Hta _]. cbn in Hta. lia. }
  destruct (last series) as [[tn vn]|] eqn:Hlast;
    [|by apply last_None, app_eq_nil in Hlast as [_ ?]].
  assert (Htn : t ≤ tn).
  { unfold series in Hlast. rewrite last_app_cons in Hlast.
    rewrite last_lookup in Hlast.
    apply (Forall_lookup_1 _ _ _ _ Hhigh Hlast). }
  assert (Hk : bisect_left (series.*1) t = length s1).
  { unfold series. rewrite fmap_app, <- (length_fmap fst s1).
    apply bisect_left_partition; by apply Forall_fmap. }
  assert (Hlen : length (series.*1) = (length s1 + S (length s2))%nat).
  { unfold series. by rewrite length_fmap, length_app. }
  assert (Hup : series !! length s1 = Some (th, vh)).
  { unfold series. by apply list_lookup_middle. }
  unfold getPriceAtTime, mbind, O_bind, obind, get_fundamental, lift.
  rewrite Hf. fold series.
  rewrite (py_index_first (series.*1) t0)
    by (rewrite head_lookup, list_lookup_fmap, <- head_lookup; by rewrite Hhead).
  rewrite (py_index_last (series.*1) tn) by by rewrite fmap_last, Hlast.
  rewrite (proj2 (Z.ltb_ge t t0)) by lia.
  rewrite (proj2 (Z.ltb_ge tn t)) by lia.
  rewrite Hk, Hlen.
  assert (Hlo : ∀ {B} (f : Z * num → B),
            py_index (f <$> series) (Z.of_nat (length s1) - 1) = Ok (f (tl, vl))).
  { intros B f. destruct s1 as [|x s1 _] using rev_ind.
    - apply py_index_last. rewrite fmap_last.
      rewrite app_nil_r in Hprev. unfold series. cbn [app]. by rewrite Hprev.
    - rewrite app_assoc, last_snoc in Hprev. injection Hprev as ->.
      rewrite length_app. cbn [length].
      replace (Z.of_nat (length s1 + 1) - 1) with (Z.of_nat (length s1)) by lia.
      apply py_index_nat. rewrite list_lookup_fmap. unfold series.
      rewrite <- app_assoc. cbn [app]. by rewrite list_lookup_middle. }
  assert (Hhi : ∀ {B} (f : Z * num → B),
            py_index (f <$> series) (Z.of_nat (length s1)) = Ok (f (th, vh))).
  { intros B f. apply py_index_nat. by rewrite list_lookup_fmap, Hup. }
  rewrite (proj2 (Z.ltb_lt (Z.of_nat (length s1) - 1)
                    (Z.of_nat (length s1 + S (length s2)) - 1))) by lia.
  replace (Z.of_nat (length s1) - 1 + 1) with (Z.of_nat (length s1)) by lia.
  rewrite !Hlo, !Hhi. cbn [fst snd].
  destruct (getInterpolatedPrice t tl th vl vh) as [p|e]; [|done].
  unfold f_log_append. by rewrite Hlog.
Qed.
(** [getPriceAtTime] changes nothing of the oracle but, on success in the
    interpolation branch, the log of the symbol it was asked about. *)
Lemma getPriceAtTime_frame (self : oracle num) (symbol : string) (t : Z) :
  mkt_open (getPriceAtTime symbol t self).2 = mkt_open self ∧
  fundamentals (getPriceAtTime symbol t self).2 = fundamentals self ∧
  ((getPriceAtTime symbol t self).2 = self ∨
   ∃ p log,
     (getPriceAtTime symbol t self).1 = Ok p ∧
     f_log self !! symbol = Some log ∧
     f_log (getPriceAtTime symbol t self).2 =
       <[symbol := log ++ [(t, p)]]> (f_log self)).
Proof.
  unfold getPriceAtTime, mbind, O_bind, obind, get_fundamental, lift,
    f_log_append, oret.
  repeat match goal with
         | |- context [match ?x with _ => _ end] =>
             match type of x with
             | option _ => destruct x eqn:?
             | result _ => destruct x eqn:?
             end
         | |- context [if ?b then _ else _] => destruct b eqn:?
         end; cbn; (split; [done|]); (split; [done|]);
    first [by left | right; by eexists _, _].
Qed.

(** X5.  [getPriceAtTime] never touches the loaded series nor the
    remembered market open, and the logs of the other symbols stay as they
    are; the log of the symbol asked about is either unchanged or longer by
    the one entry [(query_time, returned price)]. *)
Theorem getPriceAtTime_only_appends_to_log (self : oracle num)
    (symbol other : string) (query_time : Z) :
  let self' := (getPriceAtTime symbol query_time self).2 in
  mkt_open self' = mkt_open self ∧
  fundamentals self' = fundamentals self ∧
  (other ≠ symbol → f_log self' !! other = f_log self !! other) ∧
  dom (f_log self') = dom (f_log self) ∧
  (f_log self' !! symbol = f_log self !! symbol ∨
   ∃ p log,
     (getPriceAtTime symbol query_time self).1 = Ok p ∧
     f_log self !! symbol = Some log ∧
     f_log self' !! symbol = Some (log ++ [(query_time, p)])).
Proof.
  destruct (getPriceAtTime_frame self symbol query_time)
    as (Hm & Hfu & [Heq | (p & log & Hp & Hlog & Hlog')]); cbn zeta.
  - rewrite Heq. repeat split; auto.
  - rewrite Hlog'. repeat split; try done.
    + intros Hne. by rewrite lookup_insert_ne.
    + rewrite dom_insert_L.
      apply subseteq_union_1_L, singleton_subseteq_l, elem_of_dom. eauto.
    + right. exists p, log. by rewrite lookup_insert_eq.
Qed.

(** X6.  For a symbol without a series, [getPriceAtTime] and [observePrice]
    (for any noise and any generator) raise [KeyError] and leave the oracle
    and the generator as they were; [getDailyOpenPrice] raises [KeyError]
    too, having remembered the market open. *)
Theorem unknown_symbol_raises_KeyError (self : oracle num) (symbol : string)
    (t : Z) (sigma_n : num) (random_state : option rng) :
  fundamentals self !! symbol = None →
  getPriceAtTime symbol t self = (Raise KeyError, self) ∧
  observePrice symbol t sigma_n random_state self
    = (Raise KeyError, self, random_state) ∧
  getDailyOpenPrice symbol t self
    = (Raise KeyError, mkOracle (Some t) (fundamentals self) (f_log self)).
Proof.
  intros Hf.
  assert (Hg : ∀ s : oracle num,
            fundamentals s = fundamentals self →
            getPriceAtTime symbol t s = (Raise KeyError, s)).
  { intros s Hs.
    unfold getPriceAtTime, mbind, O_bind, obind, get_fundamental.
    by rewrite Hs, Hf. }
  split; [by apply Hg|]. split.
  - unfold observePrice. by rewrite Hg.
  - unfold getDailyOpenPrice, mbind, O_bind, obind. by rewrite Hg.
Qed.

(** X7.  For a symbol whose series is empty, [getPriceAtTime] and
    [observePrice] raise [IndexError] and leave the oracle and the generator
    as they were. *)
Theorem empty_series_raises_IndexError (self : oracle num) (symbol : string)
    (t : Z) (sigma_n : num) (random_state : option rng) :
  fundamentals self !! symbol = Some [] →
  getPriceAtTime symbol t self = (Raise IndexError, self) ∧
  observePrice symbol t sigma_n random_state self
    = (Raise IndexError, self, random_state).
Proof.
  intros Hf.
  assert (Hg : getPriceAtTime symbol t self = (Raise IndexError, self)).
  { unfold getPriceAtTime, mbind, O_bind, obind, get_fundamental.
    by rewrite Hf. }
  split; [done|]. unfold observePrice. by rewrite Hg.
Qed.

(** X8.  Between two neighbouring rows of a series in chronological order,
    [(ta, va)] and [(tb, vb)] with [ta < query_time <= tb], [getPriceAtTime]
    returns the price that [getInterpolatedPrice] gives between these two
    rows and appends [(query_time, price)] to the symbol's log; if
    [getInterpolatedPrice] raises, so does [getPriceAtTime], and nothing is
    logged. *)
Theorem getPriceAtTime_interpolates_neighbours (self : oracle num)
    (symbol : string) (before after : list (Z * num)) (ta tb : Z)
    (va vb : num) (log : list (Z * num)) (query_time : Z) :
  fundamentals self !! symbol
    = Some (before ++ (ta, va) :: (tb, vb) :: after) →
  StronglySorted Z.le ((before ++ (ta, va) :: (tb, vb) :: after).*1) →
  f_log self !! symbol = Some log →
  ta < query_time → query_time ≤ tb →
  getPriceAtTime symbol query_time self =
    match getInterpolatedPrice query_time ta tb va vb with
    | Ok price =>
        (Ok price,
         mkOracle (mkt_open self) (fundamentals self)
           (<[symbol := log ++ [(query_time, price)]]> (f_log self)))
    | Raise e => (Raise e, self)
    end.
Proof.
  intros Hf Hs Hlog Hta Htb.
  rewrite fmap_app in Hs. cbn [fmap list_fmap] in Hs.
  apply StronglySorted_app in Hs as (Hcross & _ & Hs).
  apply StronglySorted_cons in Hs as (Hta_all & Hs).
  apply StronglySorted_cons in Hs as (Htb_all & _).
  apply (getPriceAtTime_in_range self symbol (before ++ [(ta, va)]) after
           tb ta vb va log query_time).
  - by rewrite <- app_assoc.
  - done.
  - apply Forall_app. split; [|by repeat constructor].
    apply Forall_forall. intros [t' v'] Hin. cbn.
    assert (t' ≤ ta); [|lia].
    apply Hcross; [|by left].
    apply list_elem_of_fmap. by exists (t', v').
  - constructor; [done|].
    apply Forall_forall. intros [t' v'] Hin. cbn.
    assert (tb ≤ t'); [|lia].
    rewrite Forall_forall in Htb_all. apply Htb_all.
    apply list_elem_of_fmap. by exists (t', v').
  - by intros []%app_eq_nil.
  - by rewrite app_assoc, last_snoc.
Qed.

(** X9.  At exactly the first timestamp of a series in chronological order
    the query is not clamped: [lower_idx] is [-1], which reads the last row,
    so the price returned is the one [getInterpolatedPrice] gives from the
    last row [(tn, vn)] to the first row [(t0, v0)], and it is logged; if
    [getInterpolatedPrice] raises, so does [getPriceAtTime], and nothing is
    logged. *)
Theorem getPriceAtTime_at_first_timestamp (self : oracle num)
    (symbol : string) (rest : list (Z * num)) (t0 tn : Z) (v0 vn : num)
    (log : list (Z * num)) :
  fundamentals self !! symbol = Some ((t0, v0) :: rest) →
  StronglySorted Z.le (((t0, v0) :: rest).*1) →
  last ((t0, v0) :: rest) = Some (tn, vn) →
  f_log self !! symbol = Some log →
  getPriceAtTime symbol t0 self =
    match getInterpolatedPrice t0 tn t0 vn v0 with
    | Ok price =>
        (Ok price,
         mkOracle (mkt_open self) (fundamentals self)
           (<[symbol := log ++ [(t0, price)]]> (f_log self)))
    | Raise e => (Raise e, self)
    end.
Proof.
  intros Hf Hs Hlast Hlog.
  cbn [fmap list_fmap] in Hs.
  apply StronglySorted_cons in Hs as (Hall & _).
  apply (getPriceAtTime_in_range self symbol [] rest t0 tn v0 vn log t0).
  - done.
  - done.
  - constructor.
  - constructor; [cbn; lia|].
    apply Forall_forall. intros [t' v'] Hin. cbn.
    rewrite Forall_forall in Hall. apply Hall.
    apply list_elem_of_fmap. by exists (t', v').
  - intros _. lia.
  - by rewrite app_nil_r.
Qed.

(** X10.  On a symbol with a log and a non-empty series in chronological
    order every lookup of [getPriceAtTime] succeeds, whatever the time asked:
    the call returns a value stored in the series, or it returns or raises
    exactly what [getInterpolatedPrice] returns or raises on two rows of the
    series.  So it raises only what the division in [getInterpolatedPrice]
    raises, and where that division raises nothing it returns a price. *)
Theorem getPriceAtTime_raises_only_from_interpolation (self : oracle num)
    (symbol : string) (series : list (Z * num)) (query_time : Z) :
  fundamentals self !! symbol = Some series →
  series ≠ [] →
  StronglySorted Z.le (series.*1) →
  is_Some (f_log self !! symbol) →
  ((∃ row, row ∈ series ∧
           (getPriceAtTime symbol query_time self).1 = Ok row.2) ∨
   (∃ low high, low ∈ series ∧ high ∈ series ∧
           (getPriceAtTime symbol query_time self).1 =
             getInterpolatedPrice query_time low.1 high.1 low.2 high.2)) ∧
  ((∀ low high, low ∈ series → high ∈ series →
      ∃ p, getInterpolatedPrice query_time low.1 high.1 low.2 high.2 = Ok p) →
   ∃ p, (getPriceAtTime symbol query_time self).1 = Ok p).
Proof.
  intros Hf Hne Hs [log Hlog].
  assert (Hmain :
    (∃ row, row ∈ series ∧
            (getPriceAtTime symbol query_time self).1 = Ok row.2) ∨
    (∃ low high, low ∈ series ∧ high ∈ series ∧
            (getPriceAtTime symbol query_time self).1 =
              getInterpolatedPrice query_time low.1 high.1 low.2 high.2)).
  { destruct (head series) as [[t0 v0]|] eqn:Hhead; [|by destruct series].
    destruct (last series) as [[tn vn]|] eqn:Hlast;
      [|by apply last_None in Hlast].
    destruct (decide (query_time < t0)) as [Hlt|Hge0].
    { left. exists (t0, v0). split; [by apply head_Some_elem_of|].
      by rewrite (getPriceAtTime_before_open self symbol series t0 v0). }
    destruct (decide (tn < query_time)) as [Hgt|Hlen].
    { left. exists (tn, vn). split; [by apply last_Some_elem_of|].
      rewrite (getPriceAtTime_after_close self symbol series t0 tn v0 vn);
        [done..|lia|done]. }
    (* in range: split the rows at the time asked *)
    assert (Hsplit : ∃ s1 s2, series = s1 ++ s2 ∧
              Forall (λ r, r.1 < query_time) s1 ∧
              Forall (λ r, query_time ≤ r.1) s2).
    { clear -Hs. induction series as [|[t' v'] series IH]; [by exists [], []|].
      cbn [fmap list_fmap] in Hs. apply StronglySorted_cons in Hs as [Hall Hs].
      destruct (decide (t' < query_time)) as [Hlt|Hge].
      - destruct (IH Hs) as (s1 & s2 & -> & H1 & H2).
        exists ((t', v') :: s1), s2. by repeat constructor.
      - exists [], ((t', v') :: series). repeat split; [constructor|].
        constructor; [cbn; lia|].
        apply Forall_forall. intros [t'' v''] Hin. cbn.
        rewrite Forall_forall in Hall.
        assert (t' ≤ t''); [|lia].
        apply Hall, list_elem_of_fmap. by exists (t'', v''). }
    destruct Hsplit as (s1 & s2 & -> & H1 & H2).
    destruct s2 as [|[th vh] s2].
    { (* the last row is not before the time asked *)
      rewrite app_nil_r in Hlast. rewrite last_lookup in Hlast.
      pose proof (Forall_lookup_1 _ _ _ _ H1 Hlast) as Hlt. cbn in Hlt. lia. }
    destruct (last (((th, vh) :: s2) ++ s1)) as [[tl vl]|] eqn:Hprev;
      [|by apply last_None in Hprev].
    right. exists (tl, vl), (th, vh).
    split; [|split].
    - apply last_Some_elem_of in Hprev.
      rewrite elem_of_app in Hprev. rewrite elem_of_app. tauto.
    - rewrite elem_of_app. right. by left.
    - rewrite (getPriceAtTime_in_range self symbol s1 s2 th tl vh vl log
                 query_time); try done.
      + cbn [fst snd]. by destruct (getInterpolatedPrice _ _ _ _ _).
      + intros ->. cbn in Hhead. injection Hhead as <- <-. lia. }
  split; [exact Hmain|].
  intros Hdef. destruct Hmain as [(row & _ & Hrow) | (low & high & Hl & Hh & Hint)].
  - eauto.
  - destruct (Hdef low high Hl Hh) as [p Hp]. exists p. by rewrite Hint.
Qed.

(** X11.  With noise ([sigma_n != 0]) [observePrice] first looks the price
    up, with the effect this has on the log.  Without a generator
    ([random_state] is [None]) it then raises [AttributeError], the log entry
    of the lookup staying.  With a generator it takes [sqrt(sigma_n)]: if
    that raises (a negative [sigma_n]), the call raises the same and the
    generator is not used; otherwise it makes one draw around the true price
    with that scale, advances the generator and returns [int(round(.))] of
    the draw.  If the lookup raises, the generator is not used. *)
Theorem observePrice_noisy (self : oracle num) (symbol : string) (t : Z)
    (sigma_n : num) (g : rng) :
  is_zero sigma_n = false →
  (∀ p self',
     getPriceAtTime symbol t self = (Ok p, self') →
     observePrice symbol t sigma_n None self
       = (Raise AttributeError, self', None) ∧
     (∀ scale,
        num_sqrt sigma_n = Ok scale →
        observePrice symbol t sigma_n (Some g) self =
          (int_round (normal g p scale).1, self',
           Some (normal g p scale).2)) ∧
     (∀ e,
        num_sqrt sigma_n = Raise e →
        observePrice symbol t sigma_n (Some g) self
          = (Raise e, self', Some g))) ∧
  (∀ e self',
     getPriceAtTime symbol t self = (Raise e, self') →
     observePrice symbol t sigma_n (Some g) self = (Raise e, self', Some g) ∧
     observePrice symbol t sigma_n None self = (Raise e, self', None)).
Proof.
  intros Hz. split; intros ? self' Hg; unfold observePrice;
    rewrite Hg, ?Hz; [|done].
  split; [done|]. split; intros ? Hsqrt; rewrite Hsqrt; [|done].
  by destruct (normal g p scale).
Qed.

(** X12.  [getDailyOpenPrice] remembers the market open, also when the
    lookup raises, and otherwise is a noiseless [observePrice] at the market
    open. *)
Theorem getDailyOpenPrice_is_noiseless_observation (self : oracle num)
    (symbol : string) (mkt_open0 : Z) (sigma_n : num)
    (random_state : option rng) :
  is_zero sigma_n = true →
  getDailyOpenPrice symbol mkt_open0 self =
    (observePrice symbol mkt_open0 sigma_n random_state
       (mkOracle (Some mkt_open0) (fundamentals self) (f_log self))).1 ∧
  mkt_open (getDailyOpenPrice symbol mkt_open0 self).2 = Some mkt_open0.
Proof.
  intros Hz.
  set (self' := mkOracle (Some mkt_open0) (fundamentals self) (f_log self)).
  assert (Heq : getDailyOpenPrice symbol mkt_open0 self =
            (observePrice symbol mkt_open0 sigma_n random_state self').1).
  { unfold getDailyOpenPrice, observePrice, mbind, O_bind, obind, oret.
    fold self'. rewrite Hz.
    by destruct (getPriceAtTime symbol mkt_open0 self') as [[p|e] s]. }
  split; [done|].
  unfold getDailyOpenPrice, mbind, O_bind, obind, oret. fold self'.
  destruct (getPriceAtTime_frame self' symbol mkt_open0) as (Hm & _).
  by destruct (getPriceAtTime symbol mkt_open0 self') as [[p|e] s].
Qed.

End OracleExtras.

Section OracleInitProperties.
Import ExternalFileOracle OracleInit.
Context {num : Type} `{ReadPickle num}.

(** An entry of the configuration that [load_fundamentals] gets a series
    from. *)
Definition loads (item : string * gmap string string)
    (series : list (Z * num)) : Prop :=
  ∃ path, item.2 !! "fundamental_file_path" = Some path ∧
          read_pickle path = Some series.

Lemma load_fundamentals_loop_Ok (items : list (string * gmap string string))
    (acc : gmap string (list (Z * num))) :
  (∃ f, load_fundamentals_loop items acc = inr f) ↔
  Forall (λ item, ∃ series, loads item series) items.
Proof.
  revert acc. induction items as [|[symbol params] items IH]; intros acc.
  - split; [constructor | eauto].
  - cbn [load_fundamentals_loop]. rewrite Forall_cons. unfold loads at 1. cbn.
    destruct (params !! "fundamental_file_path") as [path|].
    + destruct (read_pickle path) as [df|] eqn:Hr.
      * rewrite IH. split; [|tauto].
        intros Hall. split; [by exists df, path | done].
      * split; [by intros [] | intros [(? & ? & [= <-] & ?) _]; congruence].
    + split; [by intros [] | by intros [(? & ? & ? & ?) _]].
Qed.

Lemma load_fundamentals_loop_spec
    (items : list (string * gmap string string))
    (acc f : gmap string (list (Z * num))) :
  load_fundamentals_loop items acc = inr f →
  dom f = dom acc ∪ list_to_set (items.*1) ∧
  ∀ s series, f !! s = Some series →
    acc !! s = Some series ∨
    ∃ params, (s, params) ∈ items ∧ loads (s, params) series.
Proof.
  revert acc. induction items as [|[symbol params] items IH]; intros acc.
  - intros [= <-]. split; [set_solver | auto].
  - cbn [load_fundamentals_loop].
    destruct (params !! "fundamental_file_path") as [path|] eqn:Hp; [|done].
    destruct (read_pickle path) as [df|] eqn:Hr; [|done].
    intros Hl. destruct (IH _ Hl) as [Hdom Hfrom]. split.
    + rewrite Hdom, dom_insert_L. cbn. set_solver.
    + intros s series Hs. destruct (Hfrom s series Hs) as [Hacc|Hin].
      * destruct (decide (symbol = s)) as [->|Hne].
        -- rewrite lookup_insert_eq in Hacc. injection Hacc as ->.
           right. exists params. split; [by left|]. by exists path.
        -- rewrite lookup_insert_ne in Hacc by done. by left.
      * right. destruct Hin as (params' & Hin & Hload).
        exists params'. split; [by right | done].
Qed.

Lemma empty_logs_spec (items : list (string * gmap string string))
    (acc : gmap string (list (Z * num))) :
  dom (foldl (λ logs item, <[item.1 := []]> logs) acc items)
    = dom acc ∪ list_to_set (items.*1) ∧
  ∀ s log,
    foldl (λ logs item, <[item.1 := []]> logs) acc items !! s = Some log →
    acc !! s = Some log ∨ log = [].
Proof.
  revert acc. induction items as [|[symbol params] items IH]; intros acc.
  - cbn. split; [set_solver | auto].
  - cbn [foldl fst]. destruct (IH (<[symbol := []]> acc)) as [Hdom Hlog]. split.
    + rewrite Hdom, dom_insert_L. cbn. set_solver.
    + intros s log Hs. destruct (Hlog s log Hs) as [Hacc|]; [|by right].
      destruct (decide (symbol = s)) as [->|Hne].
      * rewrite lookup_insert_eq in Hacc. right. congruence.
      * rewrite lookup_insert_ne in Hacc by done. by left.
Qed.

(** Past the entries that load, the loop goes on with the rest. *)
Lemma load_fundamentals_loop_app
    (before rest : list (string * gmap string string))
    (acc : gmap string (list (Z * num))) :
  Forall (λ item, ∃ series, loads item series) before →
  ∃ acc', load_fundamentals_loop (before ++ rest) acc
          = load_fundamentals_loop rest acc'.
Proof.
  revert acc. induction before as [|[symbol params] before IH]; intros acc.
  - intros _. by exists acc.
  - intros [(series & path & Hp & Hr) Hall]%Forall_cons. cbn in Hp.
    cbn [app load_fundamentals_loop]. rewrite Hp, Hr. by apply IH.
Qed.

(** X13.  The constructor returns an oracle exactly when every symbol of
    the configuration names a ['fundamental_file_path'] that [read_pickle]
    reads.  Otherwise it ends at the first symbol, in the order of the
    configuration, that does not: in the [KeyError] of the missing
    ['fundamental_file_path'] ([MissingPath]) if its parameters name none,
    and in the exception of the read ([ReadFailed]) if they name a path that
    [read_pickle] does not read. *)
Theorem init_succeeds_iff_all_series_load
    (symbols : list (string * gmap string string)) :
  ((∃ self, init symbols = inr self) ↔
   Forall (λ item, ∃ series, loads item series) symbols) ∧
  (∀ before item after,
     symbols = before ++ item :: after →
     Forall (λ item, ∃ series, loads item series) before →
     (item.2 !! "fundamental_file_path" = None →
        init symbols = inl MissingPath) ∧
     (∀ path,
        item.2 !! "fundamental_file_path" = Some path →
        read_pickle path = None →
        init symbols = inl ReadFailed)).
Proof.
  split.
  - rewrite <- (load_fundamentals_loop_Ok symbols ∅).
    unfold init, load_fundamentals.
    destruct (load_fundamentals_loop symbols ∅) as [e|f];
      split; intros [? ?]; eauto; done.
  - intros before [symbol params] after -> Hbefore.
    unfold init, load_fundamentals.
    destruct (load_fundamentals_loop_app before ((symbol, params) :: after)
                ∅ Hbefore) as [acc' ->].
    cbn [load_fundamentals_loop snd]. split.
    + by intros ->.
    + intros path -> Hr. by rewrite Hr.
Qed.

(** X14.  A constructed oracle has no market open yet, holds a series and an
    empty log for exactly the symbols of the configuration, and each series
    is the one read from a path configured for its symbol. *)
Theorem init_builds (symbols : list (string * gmap string string))
    (self : oracle num) :
  init symbols = inr self →
  mkt_open self = None ∧
  dom (fundamentals self) = list_to_set (symbols.*1) ∧
  dom (f_log self) = dom (fundamentals self) ∧
  (∀ s log, f_log self !! s = Some log → log = []) ∧
  (∀ s series, fundamentals self !! s = Some series →
     ∃ params, (s, params) ∈ symbols ∧ loads (s, params) series).
Proof.
  unfold init, load_fundamentals.
  destruct (load_fundamentals_loop symbols ∅) as [e|f] eqn:Hl; [done|].
  intros [= <-]. cbn.
  destruct (load_fundamentals_loop_spec _ _ _ Hl) as [Hdom Hfrom].
  destruct (empty_logs_spec symbols ∅) as [Hldom Hlog].
  unfold empty_logs. rewrite Hdom, Hldom, dom_empty_L.
  repeat split; [set_solver| |].
  - intros s log Hs. destruct (Hlog s log Hs) as [Hacc|]; [|done].
    by rewrite lookup_empty in Hacc.
  - intros s series Hs. destruct (Hfrom s series Hs) as [Hacc|]; [|done].
    by rewrite lookup_empty in Hacc.
Qed.

End OracleInitProperties.

Section OracleQueries.
Import ExternalFileOracle.
Context {num : Type} `{PriceOps num}.

(** The oracle after a sequence of calls of [getPriceAtTime], each a symbol
    and a time, results dropped. *)
Definition after_queries (self : oracle num) (queries : list (string * Z))
  : oracle num :=
  foldl (λ s q, (getPriceAtTime q.1 q.2 s).2) self queries.

(** X15.  Whatever sequence of prices is asked of an oracle, its series stay
    as loaded, the symbols that have a log stay the same, every log only
    grows, and each entry added to a symbol's log carries a time that was
    asked for that symbol. *)
Theorem queries_only_extend_logs (self : oracle num)
    (queries : list (string * Z)) :
  fundamentals (after_queries self queries) = fundamentals self ∧
  dom (f_log (after_queries self queries)) = dom (f_log self) ∧
  ∀ symbol log,
    f_log self !! symbol = Some log →
    ∃ added,
      f_log (after_queries self queries) !! symbol = Some (log ++ added) ∧
      Forall (λ entry, (symbol, entry.1) ∈ queries) added.
Proof.
  revert self. induction queries as [|[sym t] queries IH]; intros self.
  - cbn. repeat split; try done. intros symbol log Hlog.
    exists []. by rewrite app_nil_r.
  - cbn [after_queries foldl fst snd].
    change (foldl _ ?s queries) with (after_queries s queries).
    destruct (IH (getPriceAtTime sym t self).2) as (Hfu & Hdom & Hlogs).
    destruct (getPriceAtTime_frame self sym t)
      as (_ & Hfu1 & [Hsame | (p & log0 & _ & Hlog0 & Hnew)]).
    + rewrite Hsame in *. repeat split; try done.
      intros symbol log Hlog.
      destruct (Hlogs symbol log Hlog) as (added & Hadd & Hall).
      exists added. split; [done|].
      eapply Forall_impl; [exact Hall|]. intros; by right.
    + split; [congruence|]. split.
      { rewrite Hdom, Hnew, dom_insert_L.
        apply subseteq_union_1_L, singleton_subseteq_l, elem_of_dom. eauto. }
      intros symbol log Hlog.
      destruct (decide (symbol = sym)) as [->|Hne].
      * assert (log0 = log) as -> by congruence.
        destruct (Hlogs sym (log ++ [(t, p)])) as (added & Hadd & Hall);
          [by rewrite Hnew, lookup_insert_eq|].
        exists ((t, p) :: added). split.
        -- by rewrite Hadd, <- app_assoc.
        -- constructor; [by left|].
           eapply Forall_impl; [exact Hall|]. intros; by right.
      * destruct (Hlogs symbol log) as (added & Hadd & Hall);
          [by rewrite Hnew, lookup_insert_ne|].
        exists added. split; [done|].
        eapply Forall_impl; [exact Hall|]. intros; by right.
Qed.

End OracleQueries.

(* ===================================================================== *)
(** ** Further properties of the copies of orders                         *)
(* ===================================================================== *)

Section CopyExtras.
Import OrderTypes CopySpec.

(** X16.  The copy and the deep copy of a market or limit order equal the
    original in every attribute (class, agent, time, symbol, quantity, id,
    limit price, tag and fill price); copying an order of any class draws no
    fresh order id and prints nothing, and the copy of a copy is the copy
    again. *)
Theorem copy_equals_original (o : order) (st : pystate) :
  (class_of o ≠ CBasket →
     order_copy o st = (o, st) ∧ order_deepcopy o st = (o, st)) ∧
  (order_copy o st).2 = st ∧ (order_deepcopy o st).2 = st ∧
  order_deepcopy o st = order_copy o st ∧
  order_copy (order_copy o st).1 st = order_copy o st.
Proof.
  rewrite order_deepcopy_eq, order_copy_eq. cbn [fst snd].
  rewrite order_copy_eq.
  repeat split; try by destruct o.
Qed.

End CopyExtras.

(* ===================================================================== *)
(** ** Further properties of the market-replay agent                      *)
(* ===================================================================== *)

Module ReplaySpec.
Import MarketReplayAgentUSD.

(** The call [a] is one that the record [r] asks for, from an agent with
    the given symbol and id, at [currentTime]. *)
Definition from_record {ord : Type} (self_symbol : string) (self_id : Z)
    (currentTime : Z) (r : record) (a : action ord) : Prop :=
  match a with
  | PlaceLimitOrder sy q b p oid =>
      Type_ r = "R" ∧ 0 < Size r ∧
      sy = self_symbol ∧ q = Size r ∧
      b = String.eqb (Direction r) "BUY" ∧ p = Price r ∧ oid = Order_ID r
  | CancelOrder _ => Size r = 0
  | ModifyOrder _ n =>
      0 < Size r ∧
      n = mkLimitOrder self_id currentTime self_symbol (Size r)
            (String.eqb (Direction r) "BUY") (Price r) (Order_ID r)
  end.

End ReplaySpec.

Section ReplayExtras.
Import MarketReplayAgentUSD ReplaySpec.
Context {St ord : Type} `{TradingAgent St ord}.

(** With room for the nested calls, [placeOrder] on any list is the body
    run on its records from left to right. *)
Lemma placeOrder_foldl (depth : nat) (t : Z) (l : list record)
    (self : agent St ord) :
  (2 ≤ depth)%nat →
  placeOrder depth t l self =
    Some (foldl (λ s r, placeOrder_record t r s) self l).
Proof.
  intros Hd. destruct depth as [|[|depth]]; try lia.
  destruct (decide (length l = 1%nat)) as [Hone|Hne].
  - destruct l as [|r [|? ?]]; try done.
  - rewrite placeOrder_many, foldl_records by done.
    clear Hne. revert self. induction l as [|r l IH]; intros self; [done|].
    cbn [foldl fmap option_fmap option_map]. apply IH.
Qed.

(** One record: nothing is done, or one call that the record asks for, on
    the order the agent holds under the record's id if it holds one. *)
Lemma placeOrder_record_cases (t : Z) (r : record) (self : agent St ord) :
  placeOrder_record t r self = self ∨
  ∃ a, placeOrder_record t r self = act a self ∧
       from_record (symbol self) (id self) t r a.
Proof.
  unfold placeOrder_record.
  destruct (orders_get (inherited self) (Order_ID r)) as [e|] eqn:He; cbn.
  - destruct (Size r =? 0) eqn:H0; [|destruct (0 <? Size r) eqn:Hpos].
    + right. eexists. split; [done|]. cbn. by apply Z.eqb_eq.
    + right. eexists. split; [done|]. cbn. split; [by apply Z.ltb_lt | done].
    + by left.
  - destruct (0 <? Size r) eqn:Hpos; cbn; [|by left].
    destruct (String.eqb (Type_ r) "R") eqn:Hty; [|by left].
    right. eexists. split; [done|]. cbn.
    apply Z.ltb_lt in Hpos. apply String.eqb_eq in Hty. done.
Qed.

(** X17.  Replaying a batch in one call or in two, split at any point,
    comes to the same: [placeOrder] on [l1 ++ l2] is [placeOrder] on [l1]
    followed by [placeOrder] on [l2]. *)
Theorem placeOrder_batches_compose (depth : nat) (currentTime : Z)
    (l1 l2 : list record) (self : agent St ord) :
  (2 ≤ depth)%nat →
  placeOrder depth currentTime (l1 ++ l2) self =
    self' ← placeOrder depth currentTime l1 self;
    placeOrder depth currentTime l2 self'.
Proof.
  intros Hd. rewrite !placeOrder_foldl by done. cbn.
  by rewrite placeOrder_foldl, foldl_app by done.
Qed.

(** X18.  [placeOrder] on any list returns; it leaves the agent's symbol
    and id alone and only adds to its calls, at most one per record, and
    every call added is one that a record of the list asks for: an order is
    placed only for a record of type ['R'] with a positive size, in the
    agent's symbol and with the record's size, side, price and id; an order
    is cancelled only for a record of size [0]; and a modification carries a
    new order of the record's positive size, side, price and id, placed at
    [currentTime] by this agent.  On the empty list nothing is done. *)
Theorem placeOrder_calls_come_from_records (depth : nat) (currentTime : Z)
    (order : list record) (self : agent St ord) :
  (2 ≤ depth)%nat →
  ∃ self' added,
    placeOrder depth currentTime order self = Some self' ∧
    symbol self' = symbol self ∧ id self' = id self ∧
    actions self' = actions self ++ added ∧
    (length added ≤ length order)%nat ∧
    Forall (λ a, ∃ r, r ∈ order ∧
                   from_record (symbol self) (id self) currentTime r a)
           added.
Proof.
  intros Hd. rewrite placeOrder_foldl by done.
  exists (foldl (λ s r, placeOrder_record currentTime r s) self order).
  assert (Hgoal : ∃ added,
    symbol (foldl (λ s r, placeOrder_record currentTime r s) self order)
      = symbol self ∧
    id (foldl (λ s r, placeOrder_record currentTime r s) self order)
      = id self ∧
    actions (foldl (λ s r, placeOrder_record currentTime r s) self order)
      = actions self ++ added ∧
    (length added ≤ length order)%nat ∧
    Forall (λ a, ∃ r, r ∈ order ∧
                   from_record (symbol self) (id self) currentTime r a)
           added).
  { clear Hd. revert self. induction order as [|r order IH]; intros self.
    - exists []. cbn. by rewrite app_nil_r.
    - cbn [foldl].
      destruct (IH (placeOrder_record currentTime r self))
        as (added & Hsy & Hid & Hacts & Hlen & Hall).
      destruct (placeOrder_record_cases currentTime r self)
        as [Hsame | (a & Hact & Hfrom)].
      + rewrite Hsame in *. exists added.
        repeat split; try done; [cbn; lia|].
        eapply Forall_impl; [exact Hall|].
        intros a (r' & Hin & Hfrom). exists r'. split; [by right | done].
      + rewrite Hact in *. cbn in Hsy, Hid, Hacts. exists (a :: added).
        repeat split; try done.
        * by rewrite Hacts, <- app_assoc.
        * cbn. lia.
        * constructor; [exists r; split; [by left | done]|].
          eapply Forall_impl; [exact Hall|].
          intros a' (r' & Hin & Hfrom'). exists r'.
          split; [by right | done]. }
  destruct Hgoal as (added & ?). by exists added.
Qed.

(** X19.  For a record whose [Order_ID] names an order the agent holds,
    only the size decides: size [0] cancels that order, a positive size
    modifies it, a negative size does nothing; the record's [Type] is not
    looked at and no order is placed. *)
Theorem placeOrder_on_held_order (depth : nat) (currentTime : Z)
    (r : record) (existing : ord) (self : agent St ord) :
  (1 ≤ depth)%nat →
  orders_get (inherited self) (Order_ID r) = Some existing →
  (Size r = 0 →
     placeOrder depth currentTime [r] self
       = Some (act (CancelOrder existing) self)) ∧
  (0 < Size r →
     placeOrder depth currentTime [r] self
       = Some (act (ModifyOrder existing
                      (mkLimitOrder (id self) currentTime (symbol self)
                         (Size r) (String.eqb (Direction r) "BUY")
                         (Price r) (Order_ID r))) self)) ∧
  (Size r < 0 → placeOrder depth currentTime [r] self = Some self).
Proof.
  intros Hd He. destruct depth as [|depth]; [lia|].
  rewrite placeOrder_single. unfold placeOrder_record. rewrite He. cbn.
  repeat split; intros Hs.
  - by rewrite (proj2 (Z.eqb_eq _ _) Hs).
  - rewrite (proj2 (Z.eqb_neq _ _)) by lia.
    by rewrite (proj2 (Z.ltb_lt _ _) Hs).
  - rewrite (proj2 (Z.eqb_neq _ _)) by lia.
    by rewrite (proj2 (Z.ltb_ge _ _)) by lia.
Qed.

End ReplayExtras.

(* ===================================================================== *)
(** ** The further properties on concrete data                            *)
(* ===================================================================== *)

Module MoreSamples.
Import ExternalFileOracle OracleInit OracleSamples.
Import MarketReplayAgentUSD ReplaySamples.

Definition bid50 : OrderTypes.LimitOrder := Samples.limit_order OrderTypes.Bid 50.

(** An oracle whose only series is empty. *)
Definition empty_series_oracle : oracle Q :=
  mkOracle None {["ABC" := []]} {["ABC" := []]}.

(** A file system with one pickled series. *)
#[global] Instance one_file : ReadPickle Q :=
  λ path, if String.eqb path "abc.pkl" then Some abc_series else None.

Definition abc_symbols : list (string * gmap string string) :=
  [("ABC", {["fundamental_file_path" := "abc.pkl"]})].

(** Configurations whose second symbol has no path, or a path to no file. *)
Definition no_path_symbols : list (string * gmap string string) :=
  abc_symbols ++ [("XYZ", ∅)].

Definition no_file_symbols : list (string * gmap string string) :=
  abc_symbols ++ [("XYZ", {["fundamental_file_path" := "xyz.pkl"]})].

(** The replay agent once it holds the order of [rec_new]. *)
Definition holding_agent : agent (gmap Z LimitOrder) LimitOrder :=
  placeOrder_record 7 rec_new replay_agent.

End MoreSamples.

Section OrderExtraInstances.
Import OrderTypes Samples CopySpec MoreSamples.

(** Bids at 100, 50 and 10. *)
Lemma hasBetterPrice_strict_order_witness :
  l_class bid100 = l_class bid50 ∧ l_class bid50 = l_class bid10 ∧
  hasBetterPrice bid50 bid100 initial = (false, initial) ∧
  hasBetterPrice bid100 bid10 initial = (true, initial).
Proof.
  destruct (hasBetterPrice_strict_order bid100 bid50 bid10 initial
              eq_refl eq_refl) as [Hasym Htrans].
  split; [reflexivity|]. split; [reflexivity|]. split.
  - apply Hasym. reflexivity.
  - apply Htrans; reflexivity.
Defined.

Lemma price_trichotomy_witness :
  l_class bid100 = l_class bid10 ∧
  (hasBetterPrice bid100 bid10 initial).1 = true ∧
  hasEqPrice bid100 bid10 = false ∧
  (hasBetterPrice bid10 bid100 initial).1 = false.
Proof.
  split; [reflexivity|].
  destruct (price_trichotomy bid100 bid10 initial eq_refl)
    as [Hfirst | [(Hno & _) | (Hno & _)]];
    [exact Hfirst | vm_compute in Hno; discriminate Hno
    | vm_compute in Hno; discriminate Hno].
Defined.

(** The ask at 90 matches the bid at 100, so the ask at 10 does. *)
Lemma better_price_still_matches_witness :
  l_class ask10 = l_class ask90 ∧ l_class ask90 ≠ l_class bid100 ∧
  (hasBetterPrice ask10 ask90 initial).1 = true ∧
  (isMatch ask90 bid100 initial).1 = true ∧
  isMatch ask10 bid100 initial = (true, initial) ∧
  isMatch bid100 ask10 initial = (true, initial).
Proof.
  assert (Hne : l_class ask90 ≠ l_class bid100) by discriminate.
  split; [reflexivity|]. split; [exact Hne|].
  split; [reflexivity|]. split; [reflexivity|].
  exact (better_price_still_matches ask90 ask10 bid100 initial eq_refl Hne
           (or_introl eq_refl) eq_refl).
Defined.

Lemma copy_equals_original_witness :
  class_of (OLimit bid100) ≠ CBasket ∧
  order_copy (OLimit bid100) initial = (OLimit bid100, initial) ∧
  order_deepcopy (OLimit bid100) initial = (OLimit bid100, initial).
Proof.
  assert (Hne : class_of (OLimit bid100) ≠ CBasket) by discriminate.
  split; [exact Hne|].
  destruct (copy_equals_original (OLimit bid100) initial) as [Heq _].
  exact (Heq Hne).
Defined.

End OrderExtraInstances.

Section OracleExtraInstances.
Import ExternalFileOracle OracleInit OracleSamples MoreSamples.

Lemma getPriceAtTime_only_appends_to_log_witness :
  "XYZ" ≠ "ABC" ∧
  f_log (getPriceAtTime "ABC" 15 abc_oracle).2 !! "XYZ"
    = f_log abc_oracle !! "XYZ".
Proof.
  assert (Hne : "XYZ" ≠ "ABC") by discriminate.
  split; [exact Hne|].
  destruct (getPriceAtTime_only_appends_to_log abc_oracle "ABC" "XYZ" 15)
    as (_ & _ & Hother & _).
  exact (Hother Hne).
Defined.

Lemma unknown_symbol_raises_KeyError_witness :
  fundamentals abc_oracle !! "XYZ" = None ∧
  getPriceAtTime "XYZ" 15 abc_oracle = (Raise KeyError, abc_oracle) ∧
  observePrice "XYZ" 15 1%Q (Some 7) abc_oracle
    = (Raise KeyError, abc_oracle, Some 7).
Proof.
  assert (Hf : fundamentals abc_oracle !! "XYZ" = None)
    by (vm_compute; reflexivity).
  split; [exact Hf|].
  destruct (unknown_symbol_raises_KeyError abc_oracle "XYZ" 15 1%Q (Some 7)
              Hf) as (Hg & Ho & _).
  exact (conj Hg Ho).
Defined.

Lemma empty_series_raises_IndexError_witness :
  fundamentals empty_series_oracle !! "ABC" = Some [] ∧
  getPriceAtTime "ABC" 15 empty_series_oracle
    = (Raise IndexError, empty_series_oracle).
Proof.
  assert (Hf : fundamentals empty_series_oracle !! "ABC" = Some [])
    by (vm_compute; reflexivity).
  split; [exact Hf|].
  exact (proj1 (empty_series_raises_IndexError empty_series_oracle "ABC" 15
                  0%Q (@None Z) Hf)).
Defined.

(** Between the rows at 20 and 30 of the sample series. *)
Lemma getPriceAtTime_interpolates_neighbours_witness :
  (getPriceAtTime "ABC" 25 abc_oracle).1 =
    getInterpolatedPrice 25 20 30 (inject_Z 110) (inject_Z 105).
Proof.
  assert (Hf : fundamentals abc_oracle !! "ABC" =
            Some ([(10, inject_Z 100)] ++
                  (20, inject_Z 110) :: (30, inject_Z 105) :: []))
    by (vm_compute; reflexivity).
  assert (Hs : StronglySorted Z.le
            (([(10, inject_Z 100)] ++
              (20, inject_Z 110) :: (30, inject_Z 105) :: []).*1)).
  { cbn. repeat constructor; lia. }
  assert (Hlog : f_log abc_oracle !! "ABC" = Some [])
    by (vm_compute; reflexivity).
  rewrite (getPriceAtTime_interpolates_neighbours abc_oracle "ABC"
             [(10, inject_Z 100)] [] 20 30 (inject_Z 110) (inject_Z 105)
             [] 25 Hf Hs Hlog); [reflexivity | lia | lia].
Defined.

(** At 10, the first timestamp of the sample series: from the last row to
    the first. *)
Lemma getPriceAtTime_at_first_timestamp_witness :
  (getPriceAtTime "ABC" 10 abc_oracle).1 =
    getInterpolatedPrice 10 30 10 (inject_Z 105) (inject_Z 100).
Proof.
  assert (Hf : fundamentals abc_oracle !! "ABC" =
            Some ((10, inject_Z 100) ::
                  [(20, inject_Z 110); (30, inject_Z 105)]))
    by (vm_compute; reflexivity).
  assert (Hs : StronglySorted Z.le
            (((10, inject_Z 100) ::
              [(20, inject_Z 110); (30, inject_Z 105)]).*1)).
  { cbn. repeat constructor; lia. }
  assert (Hlog : f_log abc_oracle !! "ABC" = Some [])
    by (vm_compute; reflexivity).
  rewrite (getPriceAtTime_at_first_timestamp abc_oracle "ABC"
             [(20, inject_Z 110); (30, inject_Z 105)] 10 30
             (inject_Z 100) (inject_Z 105) [] Hf Hs eq_refl Hlog).
  reflexivity.
Defined.

Lemma getPriceAtTime_raises_only_from_interpolation_witness :
  (∃ row, row ∈ abc_series ∧
          (getPriceAtTime "ABC" 25 abc_oracle).1 = Ok row.2) ∨
  (∃ low high, low ∈ abc_series ∧ high ∈ abc_series ∧
          (getPriceAtTime "ABC" 25 abc_oracle).1 =
            getInterpolatedPrice 25 low.1 high.1 low.2 high.2).
Proof.
  assert (Hf : fundamentals abc_oracle !! "ABC" = Some abc_series)
    by (vm_compute; reflexivity).
  assert (Hne : abc_series ≠ []) by discriminate.
  assert (Hs : StronglySorted Z.le (abc_series.*1)).
  { cbn. repeat constructor; lia. }
  assert (Hlog : is_Some (f_log abc_oracle !! "ABC")).
  { exists []. vm_compute. reflexivity. }
  exact (proj1 (getPriceAtTime_raises_only_from_interpolation abc_oracle
                  "ABC" abc_series 25 Hf Hne Hs Hlog)).
Defined.

(** Before the open the lookup returns 100 and logs nothing; the noise is
    [1], then [-1]. *)
Lemma observePrice_noisy_witness :
  is_zero 1%Q = false ∧ is_zero (-1)%Q = false ∧
  observePrice "ABC" 5 1%Q None abc_oracle
    = (Raise AttributeError, abc_oracle, None) ∧
  observePrice "ABC" 5 1%Q (Some 7) abc_oracle
    = (Ok 100, abc_oracle, Some 8) ∧
  observePrice "ABC" 5 (-1)%Q (Some 7) abc_oracle
    = (Raise ValueError, abc_oracle, Some 7).
Proof.
  assert (Hz : is_zero 1%Q = false) by reflexivity.
  assert (Hz' : is_zero (-1)%Q = false) by reflexivity.
  assert (Hg : getPriceAtTime "ABC" 5 abc_oracle
               = (Ok (inject_Z 100), abc_oracle))
    by (vm_compute; reflexivity).
  split; [exact Hz|]. split; [exact Hz'|].
  destruct (observePrice_noisy abc_oracle "ABC" 5 1%Q 7 Hz) as [Hok _].
  destruct (Hok (inject_Z 100) abc_oracle Hg) as (Hnone & Hdraw & _).
  destruct (observePrice_noisy abc_oracle "ABC" 5 (-1)%Q 7 Hz') as [Hok' _].
  destruct (Hok' (inject_Z 100) abc_oracle Hg) as (_ & _ & Hraise).
  split; [exact Hnone|]. split.
  - exact (Hdraw (inject_Z 1) eq_refl).
  - exact (Hraise ValueError eq_refl).
Defined.

Lemma getDailyOpenPrice_is_noiseless_observation_witness :
  is_zero 0%Q = true ∧
  mkt_open (getDailyOpenPrice "ABC" 15 abc_oracle).2 = Some 15.
Proof.
  assert (Hz : is_zero 0%Q = true) by reflexivity.
  split; [exact Hz|].
  exact (proj2 (getDailyOpenPrice_is_noiseless_observation abc_oracle "ABC"
                  15 0%Q (@None Z) Hz)).
Defined.

Lemma init_succeeds_iff_all_series_load_witness :
  (∃ self, init abc_symbols = inr self) ∧
  init no_path_symbols = inl MissingPath ∧
  init no_file_symbols = inl ReadFailed.
Proof.
  assert (Habc : Forall (λ item, ∃ series, loads item series) abc_symbols).
  { repeat constructor. exists abc_series, "abc.pkl".
    split; vm_compute; reflexivity. }
  split; [|split].
  - exact (proj2 (proj1 (init_succeeds_iff_all_series_load abc_symbols))
             Habc).
  - exact (proj1 (proj2 (init_succeeds_iff_all_series_load no_path_symbols)
                    abc_symbols ("XYZ", ∅) [] eq_refl Habc) eq_refl).
  - exact (proj2 (proj2 (init_succeeds_iff_all_series_load no_file_symbols)
                    abc_symbols
                    ("XYZ", {["fundamental_file_path" := "xyz.pkl"]}) []
                    eq_refl Habc) "xyz.pkl" eq_refl eq_refl).
Defined.

Lemma init_builds_witness :
  init abc_symbols = inr abc_oracle ∧
  dom (f_log abc_oracle) = dom (fundamentals abc_oracle).
Proof.
  assert (Hi : init abc_symbols = inr abc_oracle)
    by (vm_compute; reflexivity).
  split; [exact Hi|].
  destruct (init_builds abc_symbols abc_oracle Hi) as (_ & _ & Hdom & _).
  exact Hdom.
Defined.

Lemma queries_only_extend_logs_witness :
  f_log abc_oracle !! "ABC" = Some [] ∧
  ∃ added,
    f_log (after_queries abc_oracle [("ABC", 15); ("ABC", 5); ("XYZ", 1)])
      !! "ABC" = Some ([] ++ added) ∧
    Forall (λ entry, ("ABC", entry.1) ∈ [("ABC", 15); ("ABC", 5); ("XYZ", 1)])
           added.
Proof.
  assert (Hlog : f_log abc_oracle !! "ABC" = Some [])
    by (vm_compute; reflexivity).
  split; [exact Hlog|].
  destruct (queries_only_extend_logs abc_oracle
              [("ABC", 15); ("ABC", 5); ("XYZ", 1)]) as (_ & _ & Hlogs).
  exact (Hlogs "ABC" [] Hlog).
Defined.

End OracleExtraInstances.

Section ReplayExtraInstances.
Import MarketReplayAgentUSD ReplaySamples ReplaySpec MoreSamples.

Lemma placeOrder_batches_compose_witness :
  placeOrder 2 7 ([rec_new; rec_other] ++ [rec_modify; rec_cancel])
    replay_agent =
  (self' ← placeOrder 2 7 [rec_new; rec_other] replay_agent;
   placeOrder 2 7 [rec_modify; rec_cancel] self').
Proof.
  exact (placeOrder_batches_compose 2 7 [rec_new; rec_other]
           [rec_modify; rec_cancel] replay_agent (le_n 2)).
Defined.

Lemma placeOrder_calls_come_from_records_witness :
  ∃ self' added,
    placeOrder 2 7 [rec_new; rec_other; rec_modify; rec_cancel] replay_agent
      = Some self' ∧
    symbol self' = symbol replay_agent ∧ id self' = id replay_agent ∧
    actions self' = actions replay_agent ++ added ∧
    (length added ≤ 4)%nat ∧
    Forall (λ a, ∃ r, r ∈ [rec_new; rec_other; rec_modify; rec_cancel] ∧
                   from_record (symbol replay_agent) (id replay_agent) 7 r a)
           added.
Proof.
  exact (placeOrder_calls_come_from_records 2 7
           [rec_new; rec_other; rec_modify; rec_cancel] replay_agent
           (le_n 2)).
Defined.

(** The agent that holds order 1, given the cancellation of order 1. *)
Lemma placeOrder_on_held_order_witness :
  ∃ existing,
    orders_get (inherited holding_agent) (Order_ID rec_cancel)
      = Some existing ∧
    Size rec_cancel = 0 ∧
    placeOrder 1 8 [rec_cancel] holding_agent
      = Some (act (CancelOrder existing) holding_agent).
Proof.
  eexists. split; [vm_compute; reflexivity|]. split; [reflexivity|].
  refine (proj1 (placeOrder_on_held_order 1 8 rec_cancel _ holding_agent
                   (le_n 1) _) eq_refl).
  vm_compute. reflexivity.
Defined.

End ReplayExtraInstances.
